(** * The clip library front end: data client, cache store, state controller

    A shallow embedding of the TypeScript sources of the clip library UI:
    - [data/api.ts]: the typed HTTP client (module [Api]);
    - [components/library.tsx]: the two-tier cache ([memoryCache] and
      [sessionStorage]) and the [ClipLibraryPage] component, whose hooks and
      handlers become functions on an explicit component state.

    Conventions.  JavaScript numbers that the code uses as integers
    (timestamps in milliseconds, offsets, durations in seconds) are [Z];
    [Date.now()] is the argument [now].  Strings are [string]; case folding
    is the ASCII one.  An optional field ([x?: T] or [T | null]) is an
    [option].  A function that suspends on a network call is split at its
    [await]: the part before it, and the continuation, which receives the
    values its closure captured and runs on the state of the moment.  The
    mounted component is a transition system over events (a render is
    committed, a callback is called, a call in flight completes).  The
    callbacks that an effect arms (the prefetch timer, the scroll observer)
    read the hooks through the closure of the render that armed them, which
    may be behind the current values; functional updates ([setX(prev =>
    ...)]) act on the current values. *)

From Stdlib Require Import ZArith Ascii String List Bool Lia Permutation.
From Stdlib Require OrderedTypeEx.
From stdpp Require Import base decidable option list sorting gmap strings pretty.

#[local] Set Warnings "-register-all".
Local Open Scope string_scope.
Local Open Scope Z_scope.

(** ** Data model ([data/api.ts], lines 1-47) *)

Inductive ClipType := Concept | Technique.

Definition ClipType_name (t : ClipType) : string :=
  match t with Concept => "Concept" | Technique => "Technique" end.

Module Clip.
Record t := make {
  id : string;
  videoId : string;
  title : string;
  type : ClipType;
  duration : Z;
  tags : list string;
  mainTags : list string;
  videoTags : list string;
  subTags : list string;
  position : option string;
  sourceCourse : string;
  sourceVideo : option string;
  timestampStart : string;
  timestampEnd : string;
  summary : string;
  isFavorite : option bool;
  createdAt : string;
  filePath : string;
  thumbnailUrl : option string
}.

(** [{ ...item, isFavorite: b }] *)
Definition with_isFavorite (b : bool) (c : t) : t :=
  make (id c) (videoId c) (title c) (type c) (duration c) (tags c)
       (mainTags c) (videoTags c) (subTags c) (position c) (sourceCourse c)
       (sourceVideo c) (timestampStart c) (timestampEnd c) (summary c)
       (Some b) (createdAt c) (filePath c) (thumbnailUrl c).

(** The truth value of [c.isFavorite]: an absent flag is falsy. *)
Definition favorite (c : t) : bool :=
  match isFavorite c with Some b => b | None => false end.
End Clip.
Abbreviation Clip := Clip.t.

Module LibraryMeta.
Record t := make {
  mainTagOptions : list string;
  videoTagOptions : list string;
  subTagOptions : list string;
  positionOptions : list string
}.
End LibraryMeta.
Abbreviation LibraryMeta := LibraryMeta.t.

Module ClipsPage.
Record t := make {
  clips : list Clip;
  limit : Z;
  offset : Z;
  nextOffset : Z;
  hasMore : bool
}.
End ClipsPage.
Abbreviation ClipsPage := ClipsPage.t.

Module VideoItem.
Record t := make {
  id : string;
  title : string;
  summary : string;
  filePath : string;
  clipCount : Z;
  mainTags : list string;
  subTags : list string;
  createdAt : string
}.
End VideoItem.
Abbreviation VideoItem := VideoItem.t.

#[global] Instance ClipType_eq_dec : EqDecision ClipType.
Proof. solve_decision. Defined.

#[global] Instance Clip_eq_dec : EqDecision Clip.
Proof. solve_decision. Defined.

(** ** The remote data client ([data/api.ts], lines 49-110)

    Response bodies are JSON values.  The client never inspects them beyond
    reading the [videos] member, so a body is kept as the value that
    [response.json()] produces; a body that is not JSON text has none. *)

Module Api.

Inductive json :=
| JNull
| JBool (b : bool)
| JNumber (n : Z)
| JString (s : string)
| JArray (items : list json)
| JObject (members : list (string * json)).

(** What an operation resolves to: a JSON value, or [undefined]. *)
Inductive value :=
| undefined
| JSON (j : json).

(** What a promise can reject with.  [Error] is the client's own
    [new Error(message)]; the two others are raised by the platform
    ([fetch] on a network failure and property access on [null];
    [response.json()] on malformed text). *)
Inductive exn :=
| Error (message : string)
| TypeError
| SyntaxError.

Inductive method := GET | POST.

Record Request := { http_method : method; url : string }.

Record Response := { status : Z; payload : option json }.

(** [response.ok]: the status is in the range 200-299. *)
Definition ok (r : Response) : bool :=
  (200 <=? status r) && (status r <=? 299).

(** The network's answer to one [fetch]. *)
Inductive answer :=
| Unreachable
| Responded (r : Response).

(** An asynchronous computation: it returns, throws, or awaits one [fetch]
    and continues with the answer. *)
Inductive io (A : Type) : Type :=
| Return (a : A)
| Throw (e : exn)
| Await (req : Request) (k : answer -> io A).
Arguments Return {A} a.
Arguments Throw {A} e.
Arguments Await {A} req k.

(** [await fetch(req)]: a network failure rejects with a [TypeError]. *)
Definition fetch {A} (req : Request) (k : Response -> io A) : io A :=
  Await req (fun a =>
    match a with
    | Unreachable => Throw TypeError
    | Responded r => k r
    end).

(** [response.json()] *)
Definition response_json {A} (r : Response) (k : json -> io A) : io A :=
  match payload r with
  | Some j => k j
  | None => Throw SyntaxError
  end.

(** [data.name], for a name that no array, string, number or boolean
    carries: only an object can have the member, and [null] has none to
    read. *)
Fixpoint lookup_member (name : string) (ms : list (string * json)) : value :=
  match ms with
  | [] => undefined
  | (k, v) :: ms' => if String.eqb k name then JSON v else lookup_member name ms'
  end.

Definition member (name : string) (data : json) : exn + value :=
  match data with
  | JNull => inl TypeError
  | JObject ms => inr (lookup_member name ms)
  | _ => inr undefined
  end.

(** [s.replace(/\/$/, "")] *)
Fixpoint strip_trailing_slash (s : string) : string :=
  match s with
  | EmptyString => EmptyString
  | String c EmptyString => if Ascii.eqb c "/"%char then EmptyString else s
  | String c s' => String c (strip_trailing_slash s')
  end.

(** [(import.meta.env.VITE_API_BASE || "").replace(/\/$/, "")] *)
Definition API_BASE_of (VITE_API_BASE : option string) : string :=
  strip_trailing_slash (default "" VITE_API_BASE).

(** [String(value)] for a boolean *)
Definition String_of_bool (b : bool) : string :=
  if b then "true" else "false".

Section Client.
Variable API_BASE : string.

Definition fetchLibraryMeta : io value :=
  fetch {| http_method := GET; url := API_BASE +:+ "/api/library/meta" |}
    (fun response =>
       if negb (ok response) then Throw (Error "Failed to load library metadata")
       else response_json response (fun j => Return (JSON j))).

Definition fetchLibraryClips (limit offset : option Z) : io value :=
  let limit := default 36 limit in
  let offset := default 0 offset in
  fetch {| http_method := GET;
           url := API_BASE +:+ "/api/library/clips?limit=" +:+ pretty limit
                  +:+ "&offset=" +:+ pretty offset |}
    (fun response =>
       if negb (ok response) then Throw (Error "Failed to load clips")
       else response_json response (fun j => Return (JSON j))).

Definition fetchFavoriteClips (limit offset : option Z) : io value :=
  let limit := default 36 limit in
  let offset := default 0 offset in
  fetch {| http_method := GET;
           url := API_BASE +:+ "/api/library/favorites?limit=" +:+ pretty limit
                  +:+ "&offset=" +:+ pretty offset |}
    (fun response =>
       if negb (ok response) then Throw (Error "Failed to load favorite clips")
       else response_json response (fun j => Return (JSON j))).

Definition setClipFavorite (clipId : string) (value : bool) : io Api.value :=
  fetch {| http_method := POST;
           url := API_BASE +:+ "/api/clips/" +:+ clipId +:+ "/favorite?value="
                  +:+ String_of_bool value |}
    (fun response =>
       if negb (ok response) then Throw (Error "Failed to update favorite")
       else Return undefined).

Definition fetchVideos : io value :=
  fetch {| http_method := GET; url := API_BASE +:+ "/api/library/videos" |}
    (fun response =>
       if negb (ok response) then Throw (Error "Failed to load videos")
       else response_json response (fun data =>
              match member "videos" data with
              | inl e => Throw e
              | inr v => Return v
              end)).

Definition getClipStreamUrl (clipId : string) : string :=
  API_BASE +:+ "/api/clips/" +:+ clipId +:+ "/stream".

Definition getVideoStreamUrl (videoId : string) : string :=
  API_BASE +:+ "/api/videos/" +:+ videoId +:+ "/stream".

End Client.

(** The five JSON operations, as the calls the view layer makes. *)
Inductive operation :=
| FetchLibraryMeta
| FetchLibraryClips (limit offset : option Z)
| FetchFavoriteClips (limit offset : option Z)
| SetClipFavorite (clipId : string) (value : bool)
| FetchVideos.

Definition perform (API_BASE : string) (op : operation) : io value :=
  match op with
  | FetchLibraryMeta => fetchLibraryMeta API_BASE
  | FetchLibraryClips l o => fetchLibraryClips API_BASE l o
  | FetchFavoriteClips l o => fetchFavoriteClips API_BASE l o
  | SetClipFavorite i v => setClipFavorite API_BASE i v
  | FetchVideos => fetchVideos API_BASE
  end.

(** Running a computation against a network.  The network sees the
    requests made so far, so that a repeated request could be answered
    differently; the run returns every request issued, in order. *)
Fixpoint run_from {A} (net : list Request -> Request -> answer)
    (sent : list Request) (p : io A) : list Request * (exn + A) :=
  match p with
  | Return a => (sent, inr a)
  | Throw e => (sent, inl e)
  | Await req k => run_from net (sent ++ [req]) (k (net sent req))
  end.

Definition run {A} (net : list Request -> Request -> answer) (p : io A)
  : list Request * (exn + A) :=
  run_from net [] p.

End Api.

(** ** The cache store ([components/library.tsx], lines 24-84) *)

Definition CACHE_TTL_MS : Z := 10 * 60 * 1000.

Module CachedLibraryState.
Record t := make {
  clips : list Clip;
  hasMoreFromServer : bool;
  nextOffset : Z;
  mainTagOptions : list string;
  videoTagOptions : list string;
  subTagOptions : list string;
  positionOptions : list string;
  cachedAt : Z
}.
End CachedLibraryState.
Abbreviation CachedLibraryState := CachedLibraryState.t.

(** [JSON.parse(raw) as CachedLibraryState] is an unchecked cast: whatever
    the stored text parses to travels on under that type.  Besides the
    snapshots that [writeCachedState] serialises, the model therefore keeps
    the JSON values that have no [cachedAt] member at all (reading it gives
    [undefined]); only their truthiness is ever observed. *)
Inductive foreign :=
| FObject
| FArray
| FString (s : string)
| FNumber (n : Z)
| FBool (b : bool).

Inductive cached :=
| Snapshot (s : CachedLibraryState)
| Foreign (f : foreign).

(** JavaScript truthiness of such a value. *)
Definition truthy (v : cached) : bool :=
  match v with
  | Snapshot _ => true
  | Foreign FObject | Foreign FArray => true
  | Foreign (FString s) => negb (String.eqb s "")
  | Foreign (FNumber n) => negb (n =? 0)
  | Foreign (FBool b) => b
  end.

(** [v.cachedAt] as a number; [None] is [NaN], which is what arithmetic
    makes of [undefined]. *)
Definition cachedAt_of (v : cached) : option Z :=
  match v with
  | Snapshot s => Some (CachedLibraryState.cachedAt s)
  | Foreign _ => None
  end.

(** [now - x < bound] and [now - x >= bound]; every comparison with [NaN]
    is false. *)
Definition age_lt (now : Z) (x : option Z) (bound : Z) : bool :=
  match x with Some t => now - t <? bound | None => false end.

Definition age_ge (now : Z) (x : option Z) (bound : Z) : bool :=
  match x with Some t => now - t >=? bound | None => false end.

(** The value [JSON.parse] gives a JSON text: [null], or one of the above. *)
Inductive parsed :=
| PNull
| PValue (v : cached).

(** A stored text, told apart by what the cache code can observe of it:
    whether it is empty, and what [JSON.parse] makes of it. *)
Inductive item :=
| Blank
| Malformed
| Text (p : parsed).

(** [sessionStorage]: its items, whether touching it throws at all (storage
    disabled), and whether [setItem] throws (quota exceeded). *)
Record Storage := {
  items : gmap string item;
  available : bool;
  full : bool
}.

(** The storage operations; [None] stands for a thrown exception. *)
Definition getItem (key : string) (st : Storage) : option (option item) :=
  if available st then Some (items st !! key) else None.

Definition setItem (key : string) (v : item) (st : Storage) : option Storage :=
  if available st && negb (full st)
  then Some {| items := <[key := v]> (items st);
               available := available st; full := full st |}
  else None.

Definition removeItem (key : string) (st : Storage) : option Storage :=
  if available st
  then Some {| items := delete key (items st);
               available := available st; full := full st |}
  else None.

(** [JSON.stringify(state)] and [JSON.parse(raw)]; [None] is a
    [SyntaxError]. *)
Definition JSON_stringify (state : CachedLibraryState) : item :=
  Text (PValue (Snapshot state)).

Definition JSON_parse (raw : item) : option parsed :=
  match raw with
  | Blank | Malformed => None
  | Text p => Some p
  end.

(** The two tiers: the module-level [memoryCache] map and [sessionStorage]. *)
Record Caches := {
  memoryCache : gmap string cached;
  sessionStorage : Storage
}.

Definition cacheKey (favoritesOnly : bool) : string :=
  "clip-library:" +:+ (if favoritesOnly then "favorites" else "all").

(** One round of the loop of [clearLibraryCaches]. *)
Definition clear_key (c : Caches) (key : string) : Caches :=
  let memory := delete key (memoryCache c) in
  match removeItem key (sessionStorage c) with
  | Some st => {| memoryCache := memory; sessionStorage := st |}
  | None => {| memoryCache := memory; sessionStorage := sessionStorage c |}
  end.

Definition clearLibraryCaches (c : Caches) : Caches :=
  let keys := [cacheKey false; cacheKey true] in
  foldl clear_key c keys.

(** How a [try] block ends. *)
Inductive completion (A : Type) :=
| Normal (a : A)
| Abrupt.
Arguments Normal {A} a.
Arguments Abrupt {A}.

(** The [try] block of [readCachedState]. *)
Definition readCachedState_try (key : string) (now : Z) (c : Caches)
  : completion (option cached * Caches) :=
  match getItem key (sessionStorage c) with
  | None => Abrupt
  | Some raw =>
    match raw with
    | None | Some Blank => Normal (None, c)
    | Some raw =>
      match JSON_parse raw with
      | None => Abrupt
      | Some PNull => Abrupt
      | Some (PValue parsed) =>
        if age_ge now (cachedAt_of parsed) CACHE_TTL_MS then
          match removeItem key (sessionStorage c) with
          | None => Abrupt
          | Some st =>
            Normal (None, {| memoryCache := memoryCache c; sessionStorage := st |})
          end
        else
          Normal (Some parsed,
                  {| memoryCache := <[key := parsed]> (memoryCache c);
                     sessionStorage := sessionStorage c |})
      end
    end
  end.

(** [readCachedState(favoritesOnly)], read at time [now = Date.now()].  The
    [catch] clause turns every exception of the block into [null]. *)
Definition readCachedState (favoritesOnly : bool) (now : Z) (c : Caches)
  : option cached * Caches :=
  let key := cacheKey favoritesOnly in
  let inMemory := memoryCache c !! key in
  if match inMemory with
     | Some v => truthy v && age_lt now (cachedAt_of v) CACHE_TTL_MS
     | None => false
     end
  then (inMemory, c)
  else
    match readCachedState_try key now c with
    | Normal r => r
    | Abrupt => (None, c)
    end.

Definition writeCachedState (favoritesOnly : bool) (state : CachedLibraryState)
    (c : Caches) : Caches :=
  let key := cacheKey favoritesOnly in
  let memory := <[key := Snapshot state]> (memoryCache c) in
  match setItem key (JSON_stringify state) (sessionStorage c) with
  | Some st => {| memoryCache := memory; sessionStorage := st |}
  | None => {| memoryCache := memory; sessionStorage := sessionStorage c |}
  end.

(** ** The component state ([ClipLibraryPage], lines 86-107)

    One field per [useState] hook, in the order of the source. *)

Inductive ViewMode := grid | list_view.
Inductive SortMode := default_order | shortest | longest.

Module State.
Record t := make {
  clips : list Clip;
  hasMoreFromServer : bool;
  nextOffset : Z;
  mainTagOptions : list string;
  videoTagOptions : list string;
  subTagOptions : list string;
  positionOptions : list string;
  isLoading : bool;
  isLoadingMore : bool;
  errorMessage : option string;
  searchQuery : string;
  selectedTypes : gset string;
  selectedMainTags : gset string;
  selectedVideoTags : gset string;
  selectedSubTags : gset string;
  selectedPositions : gset string;
  viewMode : ViewMode;
  sortMode : SortMode;
  selectedClip : option Clip;
  mobileFiltersOpen : bool
}.

(** [setClips(v)] *)
Definition set_clips (v : list Clip) (s : t) : t :=
  make v (hasMoreFromServer s) (nextOffset s) (mainTagOptions s)
    (videoTagOptions s) (subTagOptions s) (positionOptions s) (isLoading s)
    (isLoadingMore s) (errorMessage s) (searchQuery s) (selectedTypes s)
    (selectedMainTags s) (selectedVideoTags s) (selectedSubTags s)
    (selectedPositions s) (viewMode s) (sortMode s) (selectedClip s)
    (mobileFiltersOpen s).

(** [setHasMoreFromServer(v)] *)
Definition set_hasMoreFromServer (v : bool) (s : t) : t :=
  make (clips s) v (nextOffset s) (mainTagOptions s) (videoTagOptions s)
    (subTagOptions s) (positionOptions s) (isLoading s) (isLoadingMore s)
    (errorMessage s) (searchQuery s) (selectedTypes s) (selectedMainTags s)
    (selectedVideoTags s) (selectedSubTags s) (selectedPositions s)
    (viewMode s) (sortMode s) (selectedClip s) (mobileFiltersOpen s).

(** [setNextOffset(v)] *)
Definition set_nextOffset (v : Z) (s : t) : t :=
  make (clips s) (hasMoreFromServer s) v (mainTagOptions s)
    (videoTagOptions s) (subTagOptions s) (positionOptions s) (isLoading s)
    (isLoadingMore s) (errorMessage s) (searchQuery s) (selectedTypes s)
    (selectedMainTags s) (selectedVideoTags s) (selectedSubTags s)
    (selectedPositions s) (viewMode s) (sortMode s) (selectedClip s)
    (mobileFiltersOpen s).

(** [setMainTagOptions(v)] *)
Definition set_mainTagOptions (v : list string) (s : t) : t :=
  make (clips s) (hasMoreFromServer s) (nextOffset s) v (videoTagOptions s)
    (subTagOptions s) (positionOptions s) (isLoading s) (isLoadingMore s)
    (errorMessage s) (searchQuery s) (selectedTypes s) (selectedMainTags s)
    (selectedVideoTags s) (selectedSubTags s) (selectedPositions s)
    (viewMode s) (sortMode s) (selectedClip s) (mobileFiltersOpen s).

(** [setVideoTagOptions(v)] *)
Definition set_videoTagOptions (v : list string) (s : t) : t :=
  make (clips s) (hasMoreFromServer s) (nextOffset s) (mainTagOptions s) v
    (subTagOptions s) (positionOptions s) (isLoading s) (isLoadingMore s)
    (errorMessage s) (searchQuery s) (selectedTypes s) (selectedMainTags s)
    (selectedVideoTags s) (selectedSubTags s) (selectedPositions s)
    (viewMode s) (sortMode s) (selectedClip s) (mobileFiltersOpen s).

(** [setSubTagOptions(v)] *)
Definition set_subTagOptions (v : list string) (s : t) : t :=
  make (clips s) (hasMoreFromServer s) (nextOffset s) (mainTagOptions s)
    (videoTagOptions s) v (positionOptions s) (isLoading s) (isLoadingMore s)
    (errorMessage s) (searchQuery s) (selectedTypes s) (selectedMainTags s)
    (selectedVideoTags s) (selectedSubTags s) (selectedPositions s)
    (viewMode s) (sortMode s) (selectedClip s) (mobileFiltersOpen s).

(** [setPositionOptions(v)] *)
Definition set_positionOptions (v : list string) (s : t) : t :=
  make (clips s) (hasMoreFromServer s) (nextOffset s) (mainTagOptions s)
    (videoTagOptions s) (subTagOptions s) v (isLoading s) (isLoadingMore s)
    (errorMessage s) (searchQuery s) (selectedTypes s) (selectedMainTags s)
    (selectedVideoTags s) (selectedSubTags s) (selectedPositions s)
    (viewMode s) (sortMode s) (selectedClip s) (mobileFiltersOpen s).

(** [setIsLoading(v)] *)
Definition set_isLoading (v : bool) (s : t) : t :=
  make (clips s) (hasMoreFromServer s) (nextOffset s) (mainTagOptions s)
    (videoTagOptions s) (subTagOptions s) (positionOptions s) v
    (isLoadingMore s) (errorMessage s) (searchQuery s) (selectedTypes s)
    (selectedMainTags s) (selectedVideoTags s) (selectedSubTags s)
    (selectedPositions s) (viewMode s) (sortMode s) (selectedClip s)
    (mobileFiltersOpen s).

(** [setIsLoadingMore(v)] *)
Definition set_isLoadingMore (v : bool) (s : t) : t :=
  make (clips s) (hasMoreFromServer s) (nextOffset s) (mainTagOptions s)
    (videoTagOptions s) (subTagOptions s) (positionOptions s) (isLoading s) v
    (errorMessage s) (searchQuery s) (selectedTypes s) (selectedMainTags s)
    (selectedVideoTags s) (selectedSubTags s) (selectedPositions s)
    (viewMode s) (sortMode s) (selectedClip s) (mobileFiltersOpen s).

(** [setErrorMessage(v)] *)
Definition set_errorMessage (v : option string) (s : t) : t :=
  make (clips s) (hasMoreFromServer s) (nextOffset s) (mainTagOptions s)
    (videoTagOptions s) (subTagOptions s) (positionOptions s) (isLoading s)
    (isLoadingMore s) v (searchQuery s) (selectedTypes s)
    (selectedMainTags s) (selectedVideoTags s) (selectedSubTags s)
    (selectedPositions s) (viewMode s) (sortMode s) (selectedClip s)
    (mobileFiltersOpen s).

(** [setSelectedClip(v)] *)
Definition set_selectedClip (v : option Clip) (s : t) : t :=
  make (clips s) (hasMoreFromServer s) (nextOffset s) (mainTagOptions s)
    (videoTagOptions s) (subTagOptions s) (positionOptions s) (isLoading s)
    (isLoadingMore s) (errorMessage s) (searchQuery s) (selectedTypes s)
    (selectedMainTags s) (selectedVideoTags s) (selectedSubTags s)
    (selectedPositions s) (viewMode s) (sortMode s) v (mobileFiltersOpen s).
End State.
Abbreviation State := State.t.

(** The initial values of the hooks. *)
Definition initial_state : State :=
  State.make [] false 0 [] [] [] [] true false None
             "" ∅ ∅ ∅ ∅ ∅ grid default_order None false.

(** ** JavaScript built-ins used by the component *)

(** [c.toLowerCase()] on an ASCII character. *)
Definition ascii_toLowerCase (c : ascii) : ascii :=
  if (Ascii.leb "A" c && Ascii.leb c "Z")%bool
  then ascii_of_nat (nat_of_ascii c + 32)
  else c.

Fixpoint toLowerCase (s : string) : string :=
  match s with
  | EmptyString => EmptyString
  | String c s' => String (ascii_toLowerCase c) (toLowerCase s')
  end.

(** [s.startsWith(q)] and [s.includes(q)] *)
Fixpoint startsWith (s q : string) : bool :=
  match q, s with
  | EmptyString, _ => true
  | String _ _, EmptyString => false
  | String b q', String a s' => Ascii.eqb a b && startsWith s' q'
  end.

Fixpoint includes (s q : string) : bool :=
  startsWith s q ||
  match s with
  | EmptyString => false
  | String _ s' => includes s' q
  end.

(** [Array.from(new Set(xs))]: the distinct values, each at its first
    occurrence. *)
Fixpoint uniq (xs : list string) : list string :=
  match xs with
  | [] => []
  | x :: xs' => x :: List.filter (fun y => negb (String.eqb y x)) (uniq xs')
  end.

(** [xs.sort(cmp)], which is stable; [le a b] stands for [cmp(a, b) <= 0]. *)
Fixpoint insert_sorted {A} (le : A -> A -> bool) (x : A) (l : list A) : list A :=
  match l with
  | [] => [x]
  | y :: l' => if le x y then x :: y :: l' else y :: insert_sorted le x l'
  end.

Definition sort_by {A} (le : A -> A -> bool) (l : list A) : list A :=
  foldr (insert_sorted le) [] l.

(** [xs.sort()] on strings: ascending code units. *)
Definition sort_strings (xs : list string) : list string :=
  sort_by String.leb xs.

(** ** The component's functions ([ClipLibraryPage], lines 109-414) *)

Definition PAGE_SIZE : Z := 30.

(** [persistCache(next)], called at time [now]. *)
Definition persistCache (favoritesOnly : bool)
    (clips : list Clip) (hasMoreFromServer : bool) (nextOffset : Z)
    (mainTagOptions videoTagOptions subTagOptions positionOptions : list string)
    (now : Z) (c : Caches) : Caches :=
  writeCachedState favoritesOnly
    (CachedLibraryState.make clips hasMoreFromServer nextOffset
       mainTagOptions videoTagOptions subTagOptions positionOptions now) c.

(** [Array.from(new Set(page.clips.flatMap((clip) => clip.f || []))).sort()] *)
Definition tagsFromClips (f : Clip -> list string) (clips : list Clip)
  : list string :=
  sort_strings (uniq (flat_map f clips)).

(** [Array.from(new Set([...prev, ...fromClips])).sort()] *)
Definition mergeOptions (prev fromClips : list string) : list string :=
  sort_strings (uniq (prev ++ fromClips)).

(** *** Filtering and sorting (lines 281-349) *)

Definition matchesSearch (query : string) (clip : Clip) : bool :=
  includes (toLowerCase (Clip.title clip)) query
  || includes (toLowerCase (Clip.summary clip)) query
  || existsb (fun tag => includes (toLowerCase tag) query) (Clip.tags clip).

Definition has (selected : gset string) (x : string) : bool :=
  bool_decide (x ∈ selected).

Definition nonempty (selected : gset string) : bool :=
  (0 <? size selected)%nat.

(** [clip.position && selectedPositions.has(clip.position)]: [null],
    [undefined] and the empty string are falsy. *)
Definition matchesPosition (selected : gset string) (clip : Clip) : bool :=
  match Clip.position clip with
  | None => false
  | Some p => negb (String.eqb p "") && has selected p
  end.

Definition filteredClips (st : State) : list Clip :=
  let result := State.clips st in
  let result :=
    if negb (String.eqb (State.searchQuery st) "") then
      let query := toLowerCase (State.searchQuery st) in
      List.filter (matchesSearch query) result
    else result in
  let result :=
    if nonempty (State.selectedTypes st) then
      List.filter (fun clip =>
        has (State.selectedTypes st) (ClipType_name (Clip.type clip))) result
    else result in
  let result :=
    if nonempty (State.selectedMainTags st) then
      List.filter (fun clip =>
        existsb (has (State.selectedMainTags st)) (Clip.mainTags clip)) result
    else result in
  let result :=
    if nonempty (State.selectedVideoTags st) then
      List.filter (fun clip =>
        existsb (has (State.selectedVideoTags st)) (Clip.videoTags clip)) result
    else result in
  let result :=
    if nonempty (State.selectedSubTags st) then
      List.filter (fun clip =>
        existsb (has (State.selectedSubTags st)) (Clip.subTags clip)) result
    else result in
  let result :=
    if nonempty (State.selectedPositions st) then
      List.filter (matchesPosition (State.selectedPositions st)) result
    else result in
  match State.sortMode st with
  | shortest =>
    sort_by (fun a b => Clip.duration a - Clip.duration b <=? 0) result
  | longest =>
    sort_by (fun a b => Clip.duration b - Clip.duration a <=? 0) result
  | default_order => result
  end.

(** *** The component and its surroundings

    The component lives with the two cache tiers and with the network calls
    it has started and not yet seen complete.  A call in flight remembers the
    closure of its continuation: the state of the render that created the
    handler.  [ui] holds the current values of the hooks; [rendered] holds
    the values the latest committed render saw, which are the values the
    callbacks armed by that render close over until the next render is
    committed. *)

Inductive flight :=
| LoadingMeta
| LoadingFirstPage (closure : State)
| LoadingMore (closure : State)
| TogglingFavorite (clip : Clip) (closure : State).

Record System := {
  favoritesOnly : bool;
  ui : State;
  caches : Caches;
  inflight : list flight;
  rendered : State
}.

(** How a call in flight completes: with the value of the matching type, or
    with an error whose [message] the handler shows. *)
Inductive reply :=
| GotMeta (meta : LibraryMeta)
| GotPage (page : ClipsPage)
| GotNothing
| Failed (message : string).

(** **** [loadMeta] (lines 127-146) *)

Definition loadMeta_fulfilled (meta : LibraryMeta) (st : State) : State :=
  State.set_positionOptions (LibraryMeta.positionOptions meta)
    (State.set_subTagOptions (LibraryMeta.subTagOptions meta)
       (State.set_videoTagOptions (LibraryMeta.videoTagOptions meta)
          (State.set_mainTagOptions (LibraryMeta.mainTagOptions meta) st))).

Definition loadMeta_rejected (message : string) (st : State) : State :=
  State.set_errorMessage (Some message) st.

(** **** The first page (lines 148-208) *)

(** The cache branch of the effect: [setClips(cached.clips)] and so on. *)
Definition hydrate (cached : CachedLibraryState) (st : State) : State :=
  State.set_isLoading false
    (State.set_positionOptions (CachedLibraryState.positionOptions cached)
       (State.set_subTagOptions (CachedLibraryState.subTagOptions cached)
          (State.set_videoTagOptions (CachedLibraryState.videoTagOptions cached)
             (State.set_mainTagOptions (CachedLibraryState.mainTagOptions cached)
                (State.set_nextOffset (CachedLibraryState.nextOffset cached)
                   (State.set_hasMoreFromServer
                      (CachedLibraryState.hasMoreFromServer cached)
                      (State.set_clips (CachedLibraryState.clips cached) st))))))).

Definition pageCall (favoritesOnly : bool) (offset : Z) : Api.operation :=
  if favoritesOnly
  then Api.FetchFavoriteClips (Some PAGE_SIZE) (Some offset)
  else Api.FetchLibraryClips (Some PAGE_SIZE) (Some offset).

(** What mounting the component leads to.  A truthy cache value without the
    fields of a snapshot puts [undefined] in the clip list, and the next
    render fails on it. *)
Inductive mounting :=
| Mounted (sys : System) (calls : list Api.operation)
| Broken.

(** The two mount effects in source order: [loadMeta()], then the cache
    check followed, on a miss, by [loadFirstPage()].  They run after the
    first render, which saw the initial values of the hooks. *)
Definition mount (favoritesOnly : bool) (now : Z) (c : Caches) : mounting :=
  let '(cached, c) := readCachedState favoritesOnly now c in
  let miss :=
    Mounted {| favoritesOnly := favoritesOnly;
               ui := State.set_errorMessage None
                       (State.set_isLoading true initial_state);
               caches := c;
               inflight := [LoadingMeta; LoadingFirstPage initial_state];
               rendered := initial_state |}
            [Api.FetchLibraryMeta; pageCall favoritesOnly 0] in
  match cached with
  | Some (Snapshot s) =>
    Mounted {| favoritesOnly := favoritesOnly;
               ui := hydrate s initial_state;
               caches := c;
               inflight := [LoadingMeta];
               rendered := initial_state |}
            [Api.FetchLibraryMeta]
  | Some (Foreign f) => if truthy (Foreign f) then Broken else miss
  | None => miss
  end.

Definition loadFirstPage_fulfilled (closure : State) (page : ClipsPage)
    (now : Z) (sys : System) : System :=
  let mainFromClips := tagsFromClips Clip.mainTags (ClipsPage.clips page) in
  let videoFromClips := tagsFromClips Clip.videoTags (ClipsPage.clips page) in
  let subFromClips := tagsFromClips Clip.subTags (ClipsPage.clips page) in
  let st := ui sys in
  let st := State.set_mainTagOptions
              (mergeOptions (State.mainTagOptions st) mainFromClips) st in
  let st := State.set_videoTagOptions
              (mergeOptions (State.videoTagOptions st) videoFromClips) st in
  let st := State.set_subTagOptions
              (mergeOptions (State.subTagOptions st) subFromClips) st in
  let st := State.set_clips (ClipsPage.clips page) st in
  let st := State.set_hasMoreFromServer (ClipsPage.hasMore page) st in
  let st := State.set_nextOffset (ClipsPage.nextOffset page) st in
  let c := persistCache (favoritesOnly sys)
             (ClipsPage.clips page) (ClipsPage.hasMore page)
             (ClipsPage.nextOffset page)
             (mergeOptions (State.mainTagOptions closure) mainFromClips)
             (mergeOptions (State.videoTagOptions closure) videoFromClips)
             (mergeOptions (State.subTagOptions closure) subFromClips)
             (State.positionOptions closure) now (caches sys) in
  {| favoritesOnly := favoritesOnly sys;
     ui := State.set_isLoading false st;
     caches := c;
     inflight := inflight sys;
     rendered := rendered sys |}.

Definition loadFirstPage_rejected (message : string) (sys : System) : System :=
  {| favoritesOnly := favoritesOnly sys;
     ui := State.set_isLoading false
             (State.set_errorMessage (Some message) (ui sys));
     caches := caches sys;
     inflight := inflight sys;
     rendered := rendered sys |}.

(** **** [loadMoreClips] (lines 210-267) *)

(** The guard of line 211, on the state the callback closes over. *)
Definition loadMoreClips_blocked (st : State) : bool :=
  State.isLoading st || State.isLoadingMore st
  || negb (State.hasMoreFromServer st).

(** Up to the [await]: the new system and the calls issued.  The callback
    is the one of the latest committed render ([useCallback], lines 210 and
    255-267): the guard, the offset requested and everything the
    continuation reads come from that render's values of the hooks, while
    [setIsLoadingMore(true)] and [setErrorMessage(null)] act on the current
    ones. *)
Definition loadMoreClips (sys : System) : System * list Api.operation :=
  let closure := rendered sys in
  if loadMoreClips_blocked closure then (sys, [])
  else
    ({| favoritesOnly := favoritesOnly sys;
        ui := State.set_errorMessage None
                (State.set_isLoadingMore true (ui sys));
        caches := caches sys;
        inflight := inflight sys ++ [LoadingMore closure];
        rendered := rendered sys |},
     [pageCall (favoritesOnly sys) (State.nextOffset closure)]).

Definition loadMoreClips_fulfilled (closure : State) (page : ClipsPage)
    (now : Z) (sys : System) : System :=
  let st := ui sys in
  let st := State.set_clips (State.clips st ++ ClipsPage.clips page)%list st in
  let mainFromClips := tagsFromClips Clip.mainTags (ClipsPage.clips page) in
  let videoFromClips := tagsFromClips Clip.videoTags (ClipsPage.clips page) in
  let subFromClips := tagsFromClips Clip.subTags (ClipsPage.clips page) in
  let mergedMain := mergeOptions (State.mainTagOptions closure) mainFromClips in
  let mergedVideo := mergeOptions (State.videoTagOptions closure) videoFromClips in
  let mergedSub := mergeOptions (State.subTagOptions closure) subFromClips in
  let nextClips := (State.clips closure ++ ClipsPage.clips page)%list in
  let st := State.set_mainTagOptions mergedMain st in
  let st := State.set_videoTagOptions mergedVideo st in
  let st := State.set_subTagOptions mergedSub st in
  let st := State.set_hasMoreFromServer (ClipsPage.hasMore page) st in
  let st := State.set_nextOffset (ClipsPage.nextOffset page) st in
  let c := persistCache (favoritesOnly sys) nextClips (ClipsPage.hasMore page)
             (ClipsPage.nextOffset page) mergedMain mergedVideo mergedSub
             (State.positionOptions closure) now (caches sys) in
  {| favoritesOnly := favoritesOnly sys;
     ui := State.set_isLoadingMore false st;
     caches := c;
     inflight := inflight sys;
     rendered := rendered sys |}.

Definition loadMoreClips_rejected (message : string) (sys : System) : System :=
  {| favoritesOnly := favoritesOnly sys;
     ui := State.set_isLoadingMore false
             (State.set_errorMessage (Some message) (ui sys));
     caches := caches sys;
     inflight := inflight sys;
     rendered := rendered sys |}.

(** **** [handleToggleFavorite] (lines 368-414) *)

(** [item.id === clip.id ? { ...item, isFavorite: b } : item] *)
Definition mark (clip : Clip) (b : bool) (item : Clip) : Clip :=
  if String.eqb (Clip.id item) (Clip.id clip)
  then Clip.with_isFavorite b item
  else item.

(** [const next = !clip.isFavorite] *)
Definition next_of (clip : Clip) : bool := negb (Clip.favorite clip).

(** The optimistic update, before the [await]. *)
Definition handleToggleFavorite_optimistic (clip : Clip) (st : State) : State :=
  let next := next_of clip in
  let st := State.set_clips (map (mark clip next) (State.clips st)) st in
  State.set_selectedClip (mark clip next <$> State.selectedClip st) st.

Definition handleToggleFavorite (clip : Clip) (sys : System)
  : System * list Api.operation :=
  let closure := ui sys in
  ({| favoritesOnly := favoritesOnly sys;
      ui := handleToggleFavorite_optimistic clip (ui sys);
      caches := caches sys;
      inflight := inflight sys ++ [TogglingFavorite clip closure];
      rendered := rendered sys |},
   [Api.SetClipFavorite (Clip.id clip) (next_of clip)]).

(** The [try] block after [setClipFavorite] has succeeded. *)
Definition handleToggleFavorite_fulfilled (clip : Clip) (closure : State)
    (now : Z) (sys : System) : System :=
  let next := next_of clip in
  let c := clearLibraryCaches (caches sys) in
  if favoritesOnly sys && negb next then
    let st := State.set_selectedClip None (ui sys) in
    let nextClips :=
      List.filter (fun item => negb (String.eqb (Clip.id item) (Clip.id clip)))
                  (State.clips st) in
    let c := persistCache (favoritesOnly sys) nextClips
               (State.hasMoreFromServer closure) (State.nextOffset closure)
               (State.mainTagOptions closure) (State.videoTagOptions closure)
               (State.subTagOptions closure) (State.positionOptions closure)
               now c in
    {| favoritesOnly := favoritesOnly sys;
       ui := State.set_clips nextClips st;
       caches := c;
       inflight := inflight sys;
       rendered := rendered sys |}
  else
    let nextClips := map (mark clip next) (State.clips closure) in
    let c := persistCache (favoritesOnly sys) nextClips
               (State.hasMoreFromServer closure) (State.nextOffset closure)
               (State.mainTagOptions closure) (State.videoTagOptions closure)
               (State.subTagOptions closure) (State.positionOptions closure)
               now c in
    {| favoritesOnly := favoritesOnly sys;
       ui := ui sys;
       caches := c;
       inflight := inflight sys;
       rendered := rendered sys |}.

(** The [catch] block: the roll-back. *)
Definition handleToggleFavorite_rejected (clip : Clip) (st : State) : State :=
  let next := next_of clip in
  let st := State.set_clips (map (mark clip (negb next)) (State.clips st)) st in
  State.set_selectedClip (mark clip (negb next) <$> State.selectedClip st) st.

(** **** Events

    What can happen to a mounted component: React commits a render of the
    current values of the hooks; the prefetch timer (lines 270-278) or the
    scroll observer of the clip list calls the [loadMoreClips] of the latest
    committed render, which both hold, any number of times before the next
    render is committed; the user toggles a favorite or selects a clip; a
    call in flight completes.  A click is taken on a render that is up to
    date: its handler closes over the current values. *)

Inductive event :=
| Render
| InvokeLoadMore
| ClickFavorite (clip : Clip)
| SelectClip (selection : option Clip)
| Settle (i : nat) (r : reply) (now : Z).

Definition with_ui (st : State) (sys : System) : System :=
  {| favoritesOnly := favoritesOnly sys; ui := st;
     caches := caches sys; inflight := inflight sys;
     rendered := rendered sys |}.

Definition landed (i : nat) (sys : System) : System :=
  {| favoritesOnly := favoritesOnly sys; ui := ui sys;
     caches := caches sys; inflight := delete i (inflight sys);
     rendered := rendered sys |}.

(** The commit of a render: from now on the armed callbacks close over the
    values this render saw. *)
Definition commit (sys : System) : System :=
  {| favoritesOnly := favoritesOnly sys; ui := ui sys;
     caches := caches sys; inflight := inflight sys;
     rendered := ui sys |}.

(** The continuation of the [i]-th call in flight, run on its reply.  A
    reply of the wrong type for the call is not a possible event. *)
Definition settle (i : nat) (r : reply) (now : Z) (sys : System) : System :=
  match inflight sys !! i, r with
  | Some LoadingMeta, GotMeta meta =>
    with_ui (loadMeta_fulfilled meta (ui sys)) (landed i sys)
  | Some LoadingMeta, Failed message =>
    with_ui (loadMeta_rejected message (ui sys)) (landed i sys)
  | Some (LoadingFirstPage closure), GotPage page =>
    loadFirstPage_fulfilled closure page now (landed i sys)
  | Some (LoadingFirstPage _), Failed message =>
    loadFirstPage_rejected message (landed i sys)
  | Some (LoadingMore closure), GotPage page =>
    loadMoreClips_fulfilled closure page now (landed i sys)
  | Some (LoadingMore _), Failed message =>
    loadMoreClips_rejected message (landed i sys)
  | Some (TogglingFavorite clip closure), GotNothing =>
    handleToggleFavorite_fulfilled clip closure now (landed i sys)
  | Some (TogglingFavorite clip _), Failed _ =>
    with_ui (handleToggleFavorite_rejected clip (ui sys)) (landed i sys)
  | _, _ => sys
  end.

Definition react (e : event) (sys : System) : System * list Api.operation :=
  match e with
  | Render => (commit sys, [])
  | InvokeLoadMore => loadMoreClips sys
  | ClickFavorite clip => handleToggleFavorite clip sys
  | SelectClip selection =>
    (with_ui (State.set_selectedClip selection (ui sys)) sys, [])
  | Settle i r now => (settle i r now sys, [])
  end.

(** A run of events, with every call issued along the way. *)
Fixpoint run_events (es : list event) (sys : System)
  : System * list Api.operation :=
  match es with
  | [] => (sys, [])
  | e :: es' =>
    let '(sys1, calls1) := react e sys in
    let '(sys2, calls2) := run_events es' sys1 in
    (sys2, calls1 ++ calls2)%list
  end.

(** The paginated fetches among the calls in flight. *)
Definition is_page_fetch (f : flight) : bool :=
  match f with
  | LoadingFirstPage _ | LoadingMore _ => true
  | _ => false
  end.

Definition pages_in_flight (sys : System) : nat :=
  length (List.filter is_page_fetch (inflight sys)).

(** *** The filter controls

    The setters of the six filter hooks, [clearFilters] and
    [hasActiveFilters] ([library.tsx], lines 351-366), and the toggles of
    the sidebar ([library/filter-sidebar.tsx], lines 48-96). *)







(** [setSortMode(v)] *)
Definition set_sortMode (v : SortMode) (s : State) : State :=
  State.make (State.clips s) (State.hasMoreFromServer s) (State.nextOffset s)
    (State.mainTagOptions s) (State.videoTagOptions s)
    (State.subTagOptions s) (State.positionOptions s) (State.isLoading s)
    (State.isLoadingMore s) (State.errorMessage s) (State.searchQuery s)
    (State.selectedTypes s) (State.selectedMainTags s)
    (State.selectedVideoTags s) (State.selectedSubTags s)
    (State.selectedPositions s) (State.viewMode s) v (State.selectedClip s)
    (State.mobileFiltersOpen s).


(** The truth value of [hasActiveFilters]: the query is a non-empty string
    or one of the sets has a member. *)
Definition hasActiveFilters (st : State) : bool :=
  negb (String.eqb (State.searchQuery st) "")
  || nonempty (State.selectedTypes st)
  || nonempty (State.selectedMainTags st)
  || nonempty (State.selectedVideoTags st)
  || nonempty (State.selectedSubTags st)
  || nonempty (State.selectedPositions st).







(** *** Duration labels ([formatDuration], [library/clip-card] and
    [library/clip-detail-panel]) *)

(** [k] characters of [fill] repeated; [rest] is what is left of the
    current copy. *)
Fixpoint fill_to (k : nat) (fill rest : string) : string :=
  match k with
  | O => EmptyString
  | S k' =>
    match rest with
    | String c r => String c (fill_to k' fill r)
    | EmptyString =>
      match fill with
      | String c r => String c (fill_to k' fill r)
      | EmptyString => EmptyString
      end
    end
  end.

(** [s.padStart(target, fill)] *)
Definition padStart (target : nat) (fill : string) (s : string) : string :=
  if (String.length s <? target)%nat
  then fill_to (target - String.length s) fill fill +:+ s
  else s.

(** [formatDuration(seconds)], on whole seconds: [Math.floor(seconds / 60)]
    rounds down and [%] takes the sign of [seconds]. *)
Definition formatDuration (seconds : Z) : string :=
  let mins := seconds / 60 in
  let secs := Z.rem seconds 60 in
  pretty mins +:+ ":" +:+ padStart 2 "0" (pretty secs).

(** *** The navigation bar ([components/navigation]) *)

(** [isActive(path)], for the current [location.pathname]. *)
Definition isActive (pathname path : string) : bool :=
  if String.eqb path "/" && String.eqb pathname "/" then true
  else if negb (String.eqb path "/") && startsWith pathname path then true
  else false.

(** The four links, and the condition under which each is highlighted:
    [isActive("/") && location.pathname === "/"] for the first,
    [isActive(path)] for the others. *)
Definition nav_links : list string :=
  ["/"; "/library"; "/favorites"; "/videos"].

Definition highlighted (pathname link : string) : bool :=
  if String.eqb link "/"
  then isActive pathname "/" && String.eqb pathname "/"
  else isActive pathname link.

(** *** The video library ([components/video-library.tsx]) *)

(** The white space and line terminators of ASCII, which [trim] strips. *)
Definition is_whitespace (c : ascii) : bool :=
  match N_of_ascii c with
  | 9%N | 10%N | 11%N | 12%N | 13%N | 32%N => true
  | _ => false
  end.

Fixpoint trimStart (s : string) : string :=
  match s with
  | EmptyString => EmptyString
  | String c s' => if is_whitespace c then trimStart s' else s
  end.

Fixpoint trimEnd (s : string) : string :=
  match s with
  | EmptyString => EmptyString
  | String c s' =>
    match trimEnd s' with
    | EmptyString => if is_whitespace c then EmptyString else String c EmptyString
    | t => String c t
    end
  end.

(** [s.trim()] *)
Definition trim (s : string) : string := trimEnd (trimStart s).

Module VideoLibrary.
Record t := make {
  videos : list VideoItem;
  selectedVideo : option VideoItem;
  query : string;
  loading : bool;
  errorMessage : option string
}.
End VideoLibrary.
Abbreviation VideoLibrary := VideoLibrary.t.

(** The initial values of the hooks of [VideoLibrary]. *)
Definition initial_videos : VideoLibrary :=
  VideoLibrary.make [] None "" true None.

(** The [load] effect (lines 17-37): before the [await], and its two
    continuations. *)
Definition load_started (st : VideoLibrary) : VideoLibrary * list Api.operation :=
  (VideoLibrary.make (VideoLibrary.videos st) (VideoLibrary.selectedVideo st)
     (VideoLibrary.query st) true None,
   [Api.FetchVideos]).

Definition load_fulfilled (rows : list VideoItem) (st : VideoLibrary) : VideoLibrary :=
  VideoLibrary.make rows (VideoLibrary.selectedVideo st) (VideoLibrary.query st)
    false (VideoLibrary.errorMessage st).

Definition load_rejected (message : string) (st : VideoLibrary) : VideoLibrary :=
  VideoLibrary.make (VideoLibrary.videos st) (VideoLibrary.selectedVideo st)
    (VideoLibrary.query st) false (Some message).

(** The deep-link effect (lines 39-46); [videoId] is
    [searchParams.get("videoId")]. *)
Definition openFromParams (videoId : option string) (st : VideoLibrary)
  : VideoLibrary :=
  match videoId with
  | None => st
  | Some videoId =>
    if String.eqb videoId "" || (length (VideoLibrary.videos st) =? 0)%nat then st
    else
      match List.find (fun video => String.eqb (VideoItem.id video) videoId)
                      (VideoLibrary.videos st) with
      | Some found =>
        VideoLibrary.make (VideoLibrary.videos st) (Some found)
          (VideoLibrary.query st) (VideoLibrary.loading st)
          (VideoLibrary.errorMessage st)
      | None => st
      end
  end.

(** [filtered] (lines 48-58) *)
Definition matchesVideo (q : string) (video : VideoItem) : bool :=
  includes (toLowerCase (VideoItem.title video)) q
  || includes (toLowerCase (VideoItem.summary video)) q
  || existsb (fun t => includes (toLowerCase t) q) (VideoItem.mainTags video)
  || existsb (fun t => includes (toLowerCase t) q) (VideoItem.subTags video).

Definition filtered (st : VideoLibrary) : list VideoItem :=
  if String.eqb (trim (VideoLibrary.query st)) "" then VideoLibrary.videos st
  else
    let q := toLowerCase (VideoLibrary.query st) in
    List.filter (matchesVideo q) (VideoLibrary.videos st).

(** *** The clip list ([components/library/clip-list.tsx])

    [ClipLibraryPage] hands the list its own hooks, with [filteredClips] as
    [clips] (lines 485-501).  The body of the list (lines 125-198) is one of
    four panels. *)

Inductive panel :=
| ErrorPanel (message : string)
| LoadingPanel
| EmptyPanel (hasActiveFilters : bool)
| CardsPanel (clips : list Clip) (footer : option bool).

(** [errorMessage ? ... : isLoading ? ... : clips.length === 0 ? ... : ...];
    the footer of the cards is [hasMoreFromServer && (isLoadingMore ? ... :
    ...)].  The empty message is falsy. *)
Definition ClipList_body (st : State) : panel :=
  let clips := filteredClips st in
  let shown :=
    if State.isLoading st then LoadingPanel
    else if (length clips =? 0)%nat then EmptyPanel (hasActiveFilters st)
    else CardsPanel clips
                    (if State.hasMoreFromServer st
                     then Some (State.isLoadingMore st) else None) in
  match State.errorMessage st with
  | Some message =>
    if negb (String.eqb message "") then ErrorPanel message else shown
  | None => shown
  end.

(** * Vocabulary of the statements *)

(** ** The cache store *)

(** The persistent tier takes writes. *)
Definition writable (st : Storage) : Prop :=
  available st = true ∧ full st = false.

(** The read gave [null] or a snapshot younger than the time to live. *)
Definition fresh_snapshot_or_null (now : Z) (r : option cached) : Prop :=
  r = None
  ∨ ∃ s, r = Some (Snapshot s) ∧ now - CachedLibraryState.cachedAt s < CACHE_TTL_MS.

(** The stored item is absent or is one [readCachedState] can judge: empty,
    not JSON, [null], or a serialised snapshot. *)
Definition recognised (o : option item) : Prop :=
  ∀ f, o ≠ Some (Text (PValue (Foreign f))).

(** The persistent entry cannot be used: the store throws, or the item is
    absent, empty, not JSON, or [null]. *)
Definition unusable (st : Storage) (key : string) : Prop :=
  available st = false
  ∨ items st !! key = None
  ∨ items st !! key = Some Blank
  ∨ items st !! key = Some Malformed
  ∨ items st !! key = Some (Text PNull).

(** The memory tier holds no fresh snapshot under the key. *)
Definition no_fresh_memory (now : Z) (c : Caches) (key : string) : Prop :=
  ∀ s, memoryCache c !! key = Some (Snapshot s) →
       ¬ now - CachedLibraryState.cachedAt s < CACHE_TTL_MS.

(** The snapshot that describes a component state, captured at [now]. *)
Definition snapshot_of (st : State) (now : Z) : CachedLibraryState :=
  CachedLibraryState.make (State.clips st) (State.hasMoreFromServer st)
    (State.nextOffset st) (State.mainTagOptions st) (State.videoTagOptions st)
    (State.subTagOptions st) (State.positionOptions st) now.

(** ** The component *)

Definition idle (st : State) : Prop :=
  State.isLoading st = false ∧ State.isLoadingMore st = false.

(** The component shows exactly what the snapshot holds. *)
Definition hydrated_from (s : CachedLibraryState) (st : State) : Prop :=
  State.clips st = CachedLibraryState.clips s
  ∧ State.hasMoreFromServer st = CachedLibraryState.hasMoreFromServer s
  ∧ State.nextOffset st = CachedLibraryState.nextOffset s
  ∧ State.mainTagOptions st = CachedLibraryState.mainTagOptions s
  ∧ State.videoTagOptions st = CachedLibraryState.videoTagOptions s
  ∧ State.subTagOptions st = CachedLibraryState.subTagOptions s
  ∧ State.positionOptions st = CachedLibraryState.positionOptions s.

(** Counting the calls in flight of one kind. *)
Definition count (p : flight → bool) (l : list flight) : nat :=
  length (List.filter p l).

(** The values of one tag field seen in the clips of a page. *)
Definition observed (f : Clip → list string) (page : ClipsPage) (x : string) : Prop :=
  ∃ c, c ∈ ClipsPage.clips page ∧ x ∈ f c.

(** The selected-clip view gets cleared exactly when it was showing the
    given clip. *)
Definition cleared_iff_selected (clip : Clip) (before after : State) : Prop :=
  (State.selectedClip before ≠ None ∧ State.selectedClip after = None)
  ↔ (∃ s, State.selectedClip before = Some s ∧ Clip.id s = Clip.id clip).

(** ** The facets of the filter *)

(** [q] occurs in [s] when the case of letters is ignored: some stretch of
    [s] and [q] have the same lower-case form. *)
Definition occurs_ignoring_case (q s : string) : Prop :=
  ∃ pre mid post, s = pre +:+ mid +:+ post ∧ toLowerCase mid = toLowerCase q.

(** The search facet: the query occurs, case ignored, in the title, in the
    summary, or in some general tag. *)
Definition search_accepts (query : string) (c : Clip) : Prop :=
  occurs_ignoring_case query (Clip.title c)
  ∨ occurs_ignoring_case query (Clip.summary c)
  ∨ ∃ tag, tag ∈ Clip.tags c ∧ occurs_ignoring_case query tag.

(** A facet with selections accepts the values of a clip when one of them
    is selected. *)
Definition some_selected (selected : gset string) (values : list string) : Prop :=
  ∃ v, v ∈ values ∧ v ∈ selected.

(** The position facet read literally: the clip's position is a selected
    value. *)
Definition position_selected (selected : gset string) (c : Clip) : Prop :=
  ∃ p, Clip.position c = Some p ∧ p ∈ selected.

(** The position facet as the code has it: the clip has a non-empty
    position, and it is selected. *)
Definition labelled_position_selected (selected : gset string) (c : Clip) : Prop :=
  ∃ p, Clip.position c = Some p ∧ p ≠ "" ∧ p ∈ selected.

(** Every facet with a selection accepts the clip; a facet without any
    puts no constraint. *)
Record accepted (by_position : gset string → Clip → Prop)
    (st : State) (c : Clip) : Prop := {
  by_search :
    State.searchQuery st ≠ "" → search_accepts (State.searchQuery st) c;
  by_type :
    State.selectedTypes st ≠ ∅ →
    some_selected (State.selectedTypes st) [ClipType_name (Clip.type c)];
  by_mainTags :
    State.selectedMainTags st ≠ ∅ →
    some_selected (State.selectedMainTags st) (Clip.mainTags c);
  by_videoTags :
    State.selectedVideoTags st ≠ ∅ →
    some_selected (State.selectedVideoTags st) (Clip.videoTags c);
  by_subTags :
    State.selectedSubTags st ≠ ∅ →
    some_selected (State.selectedSubTags st) (Clip.subTags c);
  by_positions :
    State.selectedPositions st ≠ ∅ → by_position (State.selectedPositions st) c
}.

(** The decision the six stages of [filteredClips] take together. *)
Definition passes (st : State) (clip : Clip) : bool :=
  implb (negb (String.eqb (State.searchQuery st) ""))
        (matchesSearch (toLowerCase (State.searchQuery st)) clip)
  && (implb (nonempty (State.selectedTypes st))
            (has (State.selectedTypes st) (ClipType_name (Clip.type clip)))
  && (implb (nonempty (State.selectedMainTags st))
            (existsb (has (State.selectedMainTags st)) (Clip.mainTags clip))
  && (implb (nonempty (State.selectedVideoTags st))
            (existsb (has (State.selectedVideoTags st)) (Clip.videoTags clip))
  && (implb (nonempty (State.selectedSubTags st))
            (existsb (has (State.selectedSubTags st)) (Clip.subTags clip))
  && implb (nonempty (State.selectedPositions st))
           (matchesPosition (State.selectedPositions st) clip))))).

(** ** The remote data client *)

(** The request a computation starts with, if it makes one. *)
Definition first_request {A} (p : Api.io A) : option Api.Request :=
  match p with
  | Api.Await req _ => Some req
  | _ => None
  end.

(** The message each operation fails with. *)
Definition failure_message (op : Api.operation) : string :=
  match op with
  | Api.FetchLibraryMeta => "Failed to load library metadata"
  | Api.FetchLibraryClips _ _ => "Failed to load clips"
  | Api.FetchFavoriteClips _ _ => "Failed to load favorite clips"
  | Api.SetClipFavorite _ _ => "Failed to update favorite"
  | Api.FetchVideos => "Failed to load videos"
  end.

(** Two calls go to the same endpoint. *)
Definition same_endpoint (op1 op2 : Api.operation) : Prop :=
  match op1, op2 with
  | Api.FetchLibraryMeta, Api.FetchLibraryMeta
  | Api.FetchLibraryClips _ _, Api.FetchLibraryClips _ _
  | Api.FetchFavoriteClips _ _, Api.FetchFavoriteClips _ _
  | Api.SetClipFavorite _ _, Api.SetClipFavorite _ _
  | Api.FetchVideos, Api.FetchVideos => True
  | _, _ => False
  end.

(** What an operation resolves to on a 2xx response whose body parses to
    [body]: the body itself for the metadata and the two clip pages, its
    [videos] member for the video list (reading it from [null] throws), and
    nothing for the favorite update, which does not read the body. *)
Definition resolution (op : Api.operation) (body : Api.json)
  : Api.exn + Api.value :=
  match op with
  | Api.SetClipFavorite _ _ => inr Api.undefined
  | Api.FetchVideos => Api.member "videos" body
  | _ => inr (Api.JSON body)
  end.

(** The whole outcome of an operation: the one request, and the result as
    decided by the answer to it. *)
Definition outcome (op : Api.operation) (a : Api.answer) : Api.exn + Api.value :=
  match a with
  | Api.Unreachable => inl Api.TypeError
  | Api.Responded r =>
    if Api.ok r then
      match op with
      | Api.SetClipFavorite _ _ => inr Api.undefined
      | _ =>
        match Api.payload r with
        | Some body => resolution op body
        | None => inl Api.SyntaxError
        end
      end
    else inl (Api.Error (failure_message op))
  end.

(** ** Runs of the background prefetch (lines 270-278) *)

(** The pages a server hands out, each with the time it arrives, up to and
    including the first that reports the end of the data. *)
Fixpoint served (pages : list (ClipsPage * Z)) : list (ClipsPage * Z) :=
  match pages with
  | [] => []
  | (page, now) :: rest =>
    (page, now) :: (if ClipsPage.hasMore page then served rest else [])
  end.

(** One round of the prefetch per page: the state is rendered, the timer
    of that render calls [loadMoreClips], and the page arrives, while [k]
    other calls stay in flight. *)
Definition prefetch_rounds (k : nat) (pages : list (ClipsPage * Z))
  : list event :=
  flat_map (fun '(page, now) =>
              [Render; InvokeLoadMore; Settle k (GotPage page) now])
           pages.

(** The same rounds with the call failing each time. *)
Definition failed_rounds (k : nat) (failures : list (string * Z)) : list event :=
  flat_map (fun '(message, now) =>
              [Render; InvokeLoadMore; Settle k (Failed message) now])
           failures.

(** The offsets requested along a chain of pages: the first is [start], each
    next one the [nextOffset] of the page before. *)
Fixpoint cursors (start : Z) (pages : list (ClipsPage * Z)) : list Z :=
  match pages with
  | [] => []
  | (page, _) :: rest => start :: cursors (ClipsPage.nextOffset page) rest
  end.

(** The calls a run issues when no page can be requested any more: one
    [setClipFavorite] per click. *)
Definition toggle_calls (es : list event) : list Api.operation :=
  omap (fun e => match e with
                 | ClickFavorite clip =>
                   Some (Api.SetClipFavorite (Clip.id clip) (next_of clip))
                 | _ => None
                 end) es.

(** ** The option lists after the first page *)

(** The tag options are those of the metadata together with the tags seen
    in the page. *)
Definition options_of_meta_and_page (st : State) (meta : LibraryMeta)
    (page : ClipsPage) : Prop :=
  (∀ x, x ∈ State.mainTagOptions st
        ↔ x ∈ LibraryMeta.mainTagOptions meta ∨ observed Clip.mainTags page x)
  ∧ (∀ x, x ∈ State.videoTagOptions st
          ↔ x ∈ LibraryMeta.videoTagOptions meta ∨ observed Clip.videoTags page x)
  ∧ (∀ x, x ∈ State.subTagOptions st
          ↔ x ∈ LibraryMeta.subTagOptions meta ∨ observed Clip.subTags page x).

(** The tag options are exactly the lists of the metadata. *)
Definition options_of_meta (st : State) (meta : LibraryMeta) : Prop :=
  State.mainTagOptions st = LibraryMeta.mainTagOptions meta
  ∧ State.videoTagOptions st = LibraryMeta.videoTagOptions meta
  ∧ State.subTagOptions st = LibraryMeta.subTagOptions meta.

(** A snapshot that knows the page and nothing of the metadata: its tag
    options are the tags seen in the page, and it has no position options. *)
Definition snapshot_of_page_alone (s : CachedLibraryState) (page : ClipsPage)
    (now : Z) : Prop :=
  CachedLibraryState.clips s = ClipsPage.clips page
  ∧ CachedLibraryState.hasMoreFromServer s = ClipsPage.hasMore page
  ∧ CachedLibraryState.nextOffset s = ClipsPage.nextOffset page
  ∧ (∀ x, x ∈ CachedLibraryState.mainTagOptions s ↔ observed Clip.mainTags page x)
  ∧ (∀ x, x ∈ CachedLibraryState.videoTagOptions s ↔ observed Clip.videoTags page x)
  ∧ (∀ x, x ∈ CachedLibraryState.subTagOptions s ↔ observed Clip.subTags page x)
  ∧ CachedLibraryState.positionOptions s = []
  ∧ CachedLibraryState.cachedAt s = now.

(** ** The option lists *)

(** In ascending order of code units, as [sort()] leaves a list of
    strings. *)
Definition ascending (l : list string) : Prop :=
  StronglySorted (λ a b, String.leb a b = true) l.

(** ** The video library *)

(** Made of white space only, the empty string included. *)
Fixpoint blank (s : string) : Prop :=
  match s with
  | EmptyString => True
  | String c s' => is_whitespace c = true ∧ blank s'
  end.

(** The query occurs, case ignored, in the title, the summary, a main tag
    or a sub tag of the video. *)
Definition video_accepts (query : string) (v : VideoItem) : Prop :=
  occurs_ignoring_case query (VideoItem.title v)
  ∨ occurs_ignoring_case query (VideoItem.summary v)
  ∨ (∃ t, t ∈ VideoItem.mainTags v ∧ occurs_ignoring_case query t)
  ∨ (∃ t, t ∈ VideoItem.subTags v ∧ occurs_ignoring_case query t).

(** ** Duration labels *)

(** The decimal digit [d], and a number below one hundred written with two
    digits. *)
Definition digit (d : Z) : ascii := ascii_of_nat (48 + Z.to_nat d).

Definition two_digits (n : Z) : string :=
  String (digit (n / 10)) (String (digit (n mod 10)) EmptyString).

(** ** The loads have come to rest *)

(** Neither the metadata nor a page is in flight: every call in flight is a
    favorite toggle. *)
Definition only_toggles_in_flight (sys : System) : Prop :=
  ∀ f, f ∈ inflight sys → ∃ clip closure, f = TogglingFavorite clip closure.

(** * Sample data *)

(** A working, empty store and empty caches. *)
Definition empty_storage : Storage :=
  {| items := ∅; available := true; full := false |}.

Definition empty_caches : Caches :=
  {| memoryCache := ∅; sessionStorage := empty_storage |}.

(** The persistent tier holding text that is not JSON. *)
Definition malformed_caches : Caches :=
  {| memoryCache := ∅;
     sessionStorage := {| items := {[ cacheKey false := Malformed ]};
                          available := true; full := false |} |}.

(** The persistent tier holding the text of an empty object under the
    all-clips key. *)
Definition foreign_caches : Caches :=
  {| memoryCache := ∅;
     sessionStorage := {| items := {[ cacheKey false := Text (PValue (Foreign FObject)) ]};
                          available := true; full := false |} |}.

(** A snapshot captured at time 0. *)
Definition demo_snapshot : CachedLibraryState :=
  CachedLibraryState.make [] true 30 ["guard"] [] [] ["mount"] 0.

(** That snapshot in the memory tier, under the all-clips key. *)
Definition warm_caches : Caches :=
  {| memoryCache := {[ cacheKey false := Snapshot demo_snapshot ]};
     sessionStorage := empty_storage |}.

(** A clip with the given id, type, main tags, position and favorite flag. *)
Definition sample_clip (id : string) (type : ClipType) (mainTags : list string)
    (position : option string) (isFavorite : option bool) : Clip :=
  Clip.make id "video-1" ("Clip " +:+ id) type 60 [] mainTags [] [] position
            "Fundamentals" None "00:00" "01:00" "" isFavorite
            "2026-01-01T00:00:00Z" ("clips/" +:+ id) None.

Definition clip_a : Clip := sample_clip "a" Concept ["A"; "B"] None (Some true).
Definition clip_b : Clip := sample_clip "b" Technique ["A"] None (Some true).

(** A clip that carries no [isFavorite] at all. *)
Definition clip_u : Clip := sample_clip "u" Concept [] None None.

(** A clip whose position is the empty string. *)
Definition clip_e : Clip := sample_clip "e" Concept [] (Some "") None.

Definition first_page : ClipsPage :=
  ClipsPage.make [clip_a] PAGE_SIZE 0 30 true.

Definition second_page : ClipsPage :=
  ClipsPage.make [clip_b] PAGE_SIZE 30 31 false.

(** A cold start: mounted on empty caches, metadata and first page in
    flight. *)
Definition cold_system : System :=
  {| favoritesOnly := false;
     ui := State.set_errorMessage None (State.set_isLoading true initial_state);
     caches := empty_caches;
     inflight := [LoadingMeta; LoadingFirstPage initial_state];
     rendered := initial_state |}.

(** The first page arrives and is rendered; then the [loadMoreClips] of
    that render is called twice, by the prefetch timer and by the scroll
    observer, before the next render is committed. *)
Definition eager_events : list event :=
  [Settle 1 (GotPage first_page) 5; Render; InvokeLoadMore; InvokeLoadMore].

(** The cold start once the first page has arrived and has been rendered. *)
Definition after_first_page : System :=
  fst (run_events [Settle 1 (GotPage first_page) 5; Render] cold_system).

(** The end-to-end scenario: a library of forty clips served as a page of
    thirty and a page of ten. *)
Definition numbered_clips (first count : nat) : list Clip :=
  map (fun k => sample_clip (pretty k) Technique ["guard"] None None)
      (seq first count).

Definition page_of_thirty : ClipsPage :=
  ClipsPage.make (numbered_clips 0 30) PAGE_SIZE 0 30 true.

Definition page_of_ten : ClipsPage :=
  ClipsPage.make (numbered_clips 30 10) PAGE_SIZE 30 40 false.

(** Page one arrives and is rendered; the prefetch timer fires; page two
    arrives and is rendered; the timer would fire again. *)
Definition whole_library : list event :=
  [Settle 1 (GotPage page_of_thirty) 100; Render; InvokeLoadMore;
   Settle 1 (GotPage page_of_ten) 600; Render; InvokeLoadMore].

(** Two favorites, fully loaded. *)
Definition favorites_snapshot : CachedLibraryState :=
  CachedLibraryState.make [clip_a; clip_b] false 2 ["A"; "B"] [] [] [] 0.

(** The favorites view showing [clip_a] and [clip_b], with [clip_a] open in
    the detail panel. *)
Definition favorites_system : System :=
  {| favoritesOnly := true;
     ui := State.set_selectedClip (Some clip_a)
             (hydrate favorites_snapshot initial_state);
     caches := empty_caches;
     inflight := [];
     rendered := State.set_selectedClip (Some clip_a)
                   (hydrate favorites_snapshot initial_state) |}.

(** The user unfavorites [clip_a] and, while the call is in flight, opens
    [clip_b]. *)
Definition unfavorite_then_browse : list event :=
  [ClickFavorite clip_a; SelectClip (Some clip_b)].

(** A clip whose [isFavorite] is present, shown in the detail panel. *)
Definition browsing_system : System :=
  {| favoritesOnly := false;
     ui := State.set_selectedClip (Some clip_a)
             (hydrate favorites_snapshot initial_state);
     caches := warm_caches;
     inflight := [];
     rendered := State.set_selectedClip (Some clip_a)
                   (hydrate favorites_snapshot initial_state) |}.

(** [clip_u] alone in the list, shown in the detail panel. *)
Definition unflagged_system : System :=
  {| favoritesOnly := false;
     ui := State.set_selectedClip (Some clip_u)
             (State.set_isLoading false (State.set_clips [clip_u] initial_state));
     caches := empty_caches;
     inflight := [];
     rendered := State.set_selectedClip (Some clip_u)
                   (State.set_isLoading false
                      (State.set_clips [clip_u] initial_state)) |}.

(** The filter-conjunction scenario: two clips tagged [{A, B}] and [{A}]. *)
Definition select (types mainTags : gset string) : State :=
  State.make [clip_a; clip_b] false 0 [] [] [] [] false false None
             "" types mainTags ∅ ∅ ∅ grid default_order None false.

(** [clip_e] in the list, and exactly the empty position selected. *)
Definition select_blank_position : State :=
  State.make [clip_e] false 0 [] [] [] [""] false false None
             "" ∅ ∅ ∅ ∅ {[""]} grid default_order None false.

(** A server that answers every request with the given status and body. *)
Definition always (status : Z) (body : option Api.json)
  : list Api.Request → Api.Request → Api.answer :=
  fun _ _ => Api.Responded {| Api.status := status; Api.payload := body |}.

(** The request for the third page of thirty clips. *)
Definition clips_request : Api.Request :=
  {| Api.http_method := Api.GET;
     Api.url := "https://api.example/api/library/clips?limit=30&offset=60" |}.

(** The body [{ 'videos': [] }]. *)
Definition videos_body : Api.json :=
  Api.JObject [("videos", Api.JArray [])].

(** Metadata with one option of each kind. *)
Definition demo_meta : LibraryMeta :=
  LibraryMeta.make ["guard"] ["seminar"] ["sweep"] ["mount"].

(** A video of the library with the given id and title, and a library
    state that holds two of them. *)
Definition sample_video (id title : string) : VideoItem :=
  VideoItem.make id title "" ("videos/" +:+ id) 0 [] [] "2026-01-01T00:00:00Z".

Definition two_videos : VideoLibrary :=
  VideoLibrary.make [sample_video "v1" "Guard passing";
                     sample_video "v2" "Back takes"]
                    None "" false None.

(** A cold start on which the only page arrives and the metadata call
    fails. *)
Definition loaded_without_metadata : System :=
  fst (run_events [Settle 1 (GotPage second_page) 5;
                   Settle 0 (Failed "Failed to load library metadata") 6]
                  cold_system).


(** * Properties *)

(** ** Sorting and de-duplication *)

Section Sorting.
Context {A : Type} (le : A → A → bool).

Lemma insert_sorted_perm (x : A) (l : list A) :
  insert_sorted le x l ≡ₚ x :: l.
Proof.
  induction l as [| y l IH]; simpl; [reflexivity |].
  destruct (le x y); [reflexivity |].
  rewrite IH. apply Permutation_swap.
Qed.

Lemma sort_by_perm (l : list A) : sort_by le l ≡ₚ l.
Proof.
  induction l as [| x l IH]; simpl; [reflexivity |].
  rewrite insert_sorted_perm. by rewrite IH.
Qed.

Lemma elem_of_sort_by (x : A) (l : list A) : x ∈ sort_by le l ↔ x ∈ l.
Proof. by rewrite sort_by_perm. Qed.

End Sorting.

Lemma elem_of_List_filter {A} (p : A → bool) (x : A) (l : list A) :
  x ∈ List.filter p l ↔ x ∈ l ∧ p x = true.
Proof. rewrite !list_elem_of_In. apply filter_In. Qed.

Lemma elem_of_uniq (x : string) (xs : list string) : x ∈ uniq xs ↔ x ∈ xs.
Proof.
  induction xs as [| y xs IH]; simpl; [reflexivity |].
  rewrite !elem_of_cons, elem_of_List_filter, IH.
  destruct (String.eqb_spec x y) as [-> | Hne]; simpl; [tauto |].
  intuition congruence.
Qed.

Lemma NoDup_List_filter {A} (p : A → bool) (l : list A) :
  NoDup l → NoDup (List.filter p l).
Proof.
  induction 1 as [| x l Hx Hl IH]; simpl; [constructor |].
  destruct (p x); [| exact IH].
  constructor; [| exact IH]. rewrite elem_of_List_filter. tauto.
Qed.

Lemma NoDup_uniq (xs : list string) : NoDup (uniq xs).
Proof.
  induction xs as [| y xs IH]; simpl; constructor.
  - rewrite elem_of_List_filter, String.eqb_refl. simpl. intros [_ H]. discriminate.
  - by apply NoDup_List_filter.
Qed.

(** The merged option list is the union of its two sources, without
    repetition. *)
Lemma elem_of_mergeOptions (x : string) (prev fromClips : list string) :
  x ∈ mergeOptions prev fromClips ↔ x ∈ prev ∨ x ∈ fromClips.
Proof.
  unfold mergeOptions, sort_strings.
  by rewrite elem_of_sort_by, elem_of_uniq, elem_of_app.
Qed.

Lemma NoDup_mergeOptions (prev fromClips : list string) :
  NoDup (mergeOptions prev fromClips).
Proof.
  unfold mergeOptions, sort_strings. rewrite sort_by_perm. apply NoDup_uniq.
Qed.

Lemma elem_of_tagsFromClips (x : string) (f : Clip → list string)
    (clips : list Clip) :
  x ∈ tagsFromClips f clips ↔ ∃ c, c ∈ clips ∧ x ∈ f c.
Proof.
  unfold tagsFromClips, sort_strings.
  rewrite elem_of_sort_by, elem_of_uniq, list_elem_of_In, in_flat_map.
  split; intros (c & H1 & H2); exists c; split;
    first [by apply list_elem_of_In | done].
Qed.

(** ** The cache store *)

Lemma cacheKey_variants : cacheKey true ≠ cacheKey false.
Proof. discriminate. Qed.

Lemma cacheKey_negb (v : bool) : cacheKey v ≠ cacheKey (negb v).
Proof. destruct v; discriminate. Qed.

(** The memory tier after a write, and the persistent tier when the store
    takes the item. *)
Lemma writeCachedState_memory (v : bool) (state : CachedLibraryState) (c : Caches) :
  memoryCache (writeCachedState v state c) !! cacheKey v = Some (Snapshot state).
Proof.
  unfold writeCachedState.
  destruct (setItem _ _ _); simpl; apply lookup_insert_eq.
Qed.

Lemma writeCachedState_session (v : bool) (state : CachedLibraryState) (c : Caches) :
  available (sessionStorage c) = true →
  full (sessionStorage c) = false →
  items (sessionStorage (writeCachedState v state c)) !! cacheKey v
  = Some (JSON_stringify state).
Proof.
  intros Ha Hf. unfold writeCachedState, setItem. rewrite Ha, Hf. simpl.
  apply lookup_insert_eq.
Qed.

Lemma writeCachedState_flags (v : bool) (state : CachedLibraryState) (c : Caches) :
  available (sessionStorage (writeCachedState v state c)) = available (sessionStorage c)
  ∧ full (sessionStorage (writeCachedState v state c)) = full (sessionStorage c).
Proof.
  unfold writeCachedState, setItem.
  destruct (available (sessionStorage c) && negb (full (sessionStorage c))); done.
Qed.

Lemma persistCache_memory (v : bool) (clips : list Clip) (more : bool)
    (offset : Z) (main video sub position : list string) (now : Z) (c : Caches) :
  memoryCache (persistCache v clips more offset main video sub position now c)
    !! cacheKey v
  = Some (Snapshot (CachedLibraryState.make clips more offset main video sub
                      position now)).
Proof. apply writeCachedState_memory. Qed.

Lemma persistCache_session (v : bool) (clips : list Clip) (more : bool)
    (offset : Z) (main video sub position : list string) (now : Z) (c : Caches) :
  writable (sessionStorage c) →
  items (sessionStorage
           (persistCache v clips more offset main video sub position now c))
    !! cacheKey v
  = Some (JSON_stringify (CachedLibraryState.make clips more offset main video
                            sub position now)).
Proof. intros [Ha Hf]. by apply writeCachedState_session. Qed.

Lemma clear_key_flags (c : Caches) (key : string) :
  available (sessionStorage (clear_key c key)) = available (sessionStorage c)
  ∧ full (sessionStorage (clear_key c key)) = full (sessionStorage c).
Proof.
  unfold clear_key, removeItem.
  destruct (available (sessionStorage c)) eqn:E; simpl; rewrite ?E; done.
Qed.

Lemma clearLibraryCaches_writable (c : Caches) :
  writable (sessionStorage c) → writable (sessionStorage (clearLibraryCaches c)).
Proof.
  unfold clearLibraryCaches, writable. simpl.
  destruct (clear_key_flags c (cacheKey false)) as [A1 F1].
  destruct (clear_key_flags (clear_key c (cacheKey false)) (cacheKey true))
    as [A2 F2].
  rewrite A2, F2, A1, F1. tauto.
Qed.

Lemma memory_miss (now : Z) (c : Caches) (key : string) :
  no_fresh_memory now c key →
  match memoryCache c !! key with
  | Some v => truthy v && age_lt now (cachedAt_of v) CACHE_TTL_MS
  | None => false
  end = false.
Proof.
  intros Hm. destruct (memoryCache c !! key) as [[s | f] |] eqn:E; simpl.
  - specialize (Hm s E).
    destruct (Z.ltb_spec (now - CachedLibraryState.cachedAt s) CACHE_TTL_MS);
      [contradiction | reflexivity].
  - apply andb_false_r.
  - reflexivity.
Qed.

(** What the [try] block with its [catch] clause amounts to. *)
Lemma try_block_snapshot_fresh (key : string) (now : Z) (c : Caches)
    (s : CachedLibraryState) :
  fst match readCachedState_try key now c with
      | Normal r => r
      | Abrupt => (None, c)
      end = Some (Snapshot s) →
  now - CachedLibraryState.cachedAt s < CACHE_TTL_MS.
Proof.
  unfold readCachedState_try, getItem, removeItem.
  destruct (available (sessionStorage c)); simpl; [| discriminate].
  destruct (items (sessionStorage c) !! key) as [[| | [| [s' | f]]] |];
    simpl; try discriminate.
  destruct (Z.geb_spec (now - CachedLibraryState.cachedAt s') CACHE_TTL_MS);
    simpl; [discriminate | intros [= <-]; lia].
Qed.

(** A snapshot that a read returns is fresh, whichever tier it came from. *)
Lemma readCachedState_snapshot_fresh (v : bool) (now : Z) (c : Caches)
    (s : CachedLibraryState) :
  fst (readCachedState v now c) = Some (Snapshot s) →
  now - CachedLibraryState.cachedAt s < CACHE_TTL_MS.
Proof.
  unfold readCachedState.
  destruct (memoryCache c !! cacheKey v) as [[s' | f] |]; simpl.
  - destruct (Z.ltb_spec (now - CachedLibraryState.cachedAt s') CACHE_TTL_MS);
      simpl; [by intros [= <-] | apply try_block_snapshot_fresh].
  - rewrite andb_false_r. apply try_block_snapshot_fresh.
  - apply try_block_snapshot_fresh.
Qed.

(** Hits of the two tiers. *)
Lemma readCachedState_memory_hit (v : bool) (now : Z) (c : Caches)
    (s : CachedLibraryState) :
  memoryCache c !! cacheKey v = Some (Snapshot s) →
  now - CachedLibraryState.cachedAt s < CACHE_TTL_MS →
  readCachedState v now c = (Some (Snapshot s), c).
Proof.
  intros Hm Hf. unfold readCachedState. rewrite Hm. simpl.
  destruct (Z.ltb_spec (now - CachedLibraryState.cachedAt s) CACHE_TTL_MS);
    [reflexivity | lia].
Qed.

Lemma readCachedState_session_hit (v : bool) (now : Z) (c : Caches)
    (s : CachedLibraryState) :
  no_fresh_memory now c (cacheKey v) →
  available (sessionStorage c) = true →
  items (sessionStorage c) !! cacheKey v = Some (JSON_stringify s) →
  now - CachedLibraryState.cachedAt s < CACHE_TTL_MS →
  readCachedState v now c
  = (Some (Snapshot s),
     {| memoryCache := <[cacheKey v := Snapshot s]> (memoryCache c);
        sessionStorage := sessionStorage c |}).
Proof.
  intros Hm Ha Hi Hf. unfold readCachedState.
  rewrite (memory_miss now c _ Hm).
  unfold readCachedState_try, getItem. rewrite Ha, Hi. simpl.
  destruct (Z.geb_spec (now - CachedLibraryState.cachedAt s) CACHE_TTL_MS);
    [lia | reflexivity].
Qed.

(** Reading back what was just written. *)
Lemma read_after_write_fresh (v : bool) (state : CachedLibraryState)
    (c : Caches) (now : Z) :
  now - CachedLibraryState.cachedAt state < CACHE_TTL_MS →
  readCachedState v now (writeCachedState v state c)
  = (Some (Snapshot state), writeCachedState v state c).
Proof.
  intros Hfresh. unfold readCachedState.
  rewrite writeCachedState_memory. simpl.
  destruct (Z.ltb_spec (now - CachedLibraryState.cachedAt state) CACHE_TTL_MS);
    [done | lia].
Qed.

Lemma read_after_write_stale (v : bool) (state : CachedLibraryState)
    (c : Caches) (now : Z) :
  available (sessionStorage c) && full (sessionStorage c) = false →
  CACHE_TTL_MS <= now - CachedLibraryState.cachedAt state →
  fst (readCachedState v now (writeCachedState v state c)) = None
  ∧ (available (sessionStorage c) = true →
     items (sessionStorage (snd (readCachedState v now (writeCachedState v state c))))
       !! cacheKey v = None).
Proof.
  intros Hq Hstale. unfold readCachedState.
  rewrite writeCachedState_memory. simpl.
  destruct (Z.ltb_spec (now - CachedLibraryState.cachedAt state) CACHE_TTL_MS);
    [lia |].
  unfold readCachedState_try, getItem.
  destruct (writeCachedState_flags v state c) as [-> _].
  destruct (available (sessionStorage c)) eqn:Ha; simpl; [| done].
  simpl in Hq.
  rewrite writeCachedState_session by done. simpl.
  unfold age_ge. simpl.
  destruct (Z.geb_spec (now - CachedLibraryState.cachedAt state) CACHE_TTL_MS);
    [| lia].
  unfold removeItem.
  destruct (writeCachedState_flags v state c) as [-> _]. rewrite Ha. simpl.
  split; [done |]. intros _. apply lookup_delete_eq.
Qed.

(** C9. Writing the snapshot of one view variant leaves the entry of the
    other variant as it was, in the memory tier and in the persistent tier,
    whatever the two tiers held and whether or not the store takes the
    write. *)
Theorem writeCachedState_variant_isolation
    (v : bool) (state : CachedLibraryState) (c : Caches) :
  memoryCache (writeCachedState v state c) !! cacheKey (negb v)
  = memoryCache c !! cacheKey (negb v)
  ∧ items (sessionStorage (writeCachedState v state c)) !! cacheKey (negb v)
    = items (sessionStorage c) !! cacheKey (negb v).
Proof.
  pose proof (cacheKey_negb v) as Hne.
  unfold writeCachedState, setItem.
  destruct (available (sessionStorage c) && negb (full (sessionStorage c)));
    simpl; rewrite ?lookup_insert_ne by done; done.
Qed.

Lemma geb_ltb (x y : Z) : (x >=? y) = negb (x <? y).
Proof. rewrite Z.geb_leb. apply Z.leb_antisym. Qed.




(** C10, as the code has it.  Whatever the memory tier holds, when the
    store throws on access, and when it works and the item under the key is
    absent, empty, not JSON, [null] or a serialised snapshot,
    [readCachedState] completes with [null] or with a fresh snapshot.  When
    the memory tier has no fresh snapshot and the persistent entry is absent,
    empty, not JSON, [null], or unreadable, the result is [null] and both
    tiers are left as they were. *)
Theorem readCachedState_total (v : bool) (now : Z) (c : Caches) :
  (available (sessionStorage c) = true →
   recognised (items (sessionStorage c) !! cacheKey v)) →
  fresh_snapshot_or_null now (fst (readCachedState v now c))
  ∧ (no_fresh_memory now c (cacheKey v) →
     unusable (sessionStorage c) (cacheKey v) →
     readCachedState v now c = (None, c)).
Proof.
  intros Hrec. split.
  - destruct (fst (readCachedState v now c)) as [[s | f] |] eqn:E.
    + right. exists s. split; [reflexivity |].
      by apply (readCachedState_snapshot_fresh v now c).
    + exfalso. revert E. unfold readCachedState.
      assert (Htry : fst match readCachedState_try (cacheKey v) now c with
                         | Normal r => r
                         | Abrupt => (None, c)
                         end ≠ Some (Foreign f)).
      { unfold readCachedState_try, getItem, removeItem.
        destruct (available (sessionStorage c)); simpl; [| discriminate].
        destruct (items (sessionStorage c) !! cacheKey v)
          as [[| | [| [s | f']]] |] eqn:Ei; simpl; try discriminate.
        - match goal with |- context [if ?b then _ else _] => destruct b end;
            simpl; discriminate.
        - by destruct (Hrec eq_refl f'). }
      destruct (memoryCache c !! cacheKey v) as [[s | f'] |]; simpl.
      * destruct (_ <? _); simpl; [discriminate | exact Htry].
      * rewrite andb_false_r. exact Htry.
      * exact Htry.
    + by left.
  - intros Hm Hu. unfold readCachedState.
    rewrite (memory_miss now c _ Hm).
    unfold readCachedState_try, getItem.
    destruct Hu as [Ha | Hu].
    { by rewrite Ha. }
    destruct (available (sessionStorage c)); [| reflexivity].
    destruct Hu as [-> | [-> | [-> | ->]]]; reflexivity.
Qed.

Lemma malformed_caches_recognised :
  available (sessionStorage malformed_caches) = true →
  recognised (items (sessionStorage malformed_caches) !! cacheKey false).
Proof.
  intros _ f. unfold malformed_caches. simpl.
  rewrite lookup_singleton_eq. discriminate.
Qed.

Lemma malformed_caches_no_fresh_memory :
  no_fresh_memory 0 malformed_caches (cacheKey false).
Proof.
  intros s H. unfold malformed_caches in H. simpl in H.
  by rewrite lookup_empty in H.
Qed.

Lemma malformed_caches_unusable :
  unusable (sessionStorage malformed_caches) (cacheKey false).
Proof.
  right. right. right. left. unfold malformed_caches. simpl.
  apply lookup_singleton_eq.
Qed.

Lemma readCachedState_total_witness :
  fresh_snapshot_or_null 0 (fst (readCachedState false 0 malformed_caches))
  ∧ readCachedState false 0 malformed_caches = (None, malformed_caches).
Proof.
  destruct (readCachedState_total false 0 malformed_caches
              malformed_caches_recognised) as [H1 H2].
  split; [exact H1 |].
  exact (H2 malformed_caches_no_fresh_memory malformed_caches_unusable).
Defined.

(** C10, as stated, fails: a stored item that is valid JSON but not a
    snapshot (here the text of an empty object) passes the staleness test,
    because its missing [cachedAt] makes the age [NaN], and is returned as
    if it were a snapshot. *)
Lemma readCachedState_returns_foreign :
  fst (readCachedState false 0 foreign_caches) = Some (Foreign FObject)
  ∧ ¬ fresh_snapshot_or_null 0 (fst (readCachedState false 0 foreign_caches)).
Proof.
  assert (E : fst (readCachedState false 0 foreign_caches) = Some (Foreign FObject))
    by (vm_compute; reflexivity).
  split; [exact E |]. rewrite E.
  intros [H | (s & H & _)]; discriminate.
Qed.

(** ** Activation *)

(** C7, as the code has it.  When the cache read at activation yields a
    fresh snapshot, the component takes its clips, pagination state and
    option lists from the snapshot and is idle at once; no clip page is
    requested, and the one call activation still makes is the metadata
    fetch of the [loadMeta] effect. *)
Theorem mount_cache_hit (v : bool) (now : Z) (c : Caches)
    (s : CachedLibraryState) :
  fst (readCachedState v now c) = Some (Snapshot s) →
  now - CachedLibraryState.cachedAt s < CACHE_TTL_MS
  ∧ ∃ sys, mount v now c = Mounted sys [Api.FetchLibraryMeta]
           ∧ favoritesOnly sys = v
           ∧ hydrated_from s (ui sys)
           ∧ idle (ui sys)
           ∧ inflight sys = [LoadingMeta]
           ∧ pages_in_flight sys = 0%nat.
Proof.
  intros Hread. split; [by apply (readCachedState_snapshot_fresh v now c) |].
  unfold mount. destruct (readCachedState v now c) as [r c'].
  simpl in Hread. subst r.
  eexists. split; [reflexivity |].
  repeat split.
Qed.

Lemma mount_cache_hit_witness :
  ∃ sys, mount false 1 warm_caches = Mounted sys [Api.FetchLibraryMeta]
         ∧ favoritesOnly sys = false
         ∧ hydrated_from demo_snapshot (ui sys)
         ∧ idle (ui sys)
         ∧ inflight sys = [LoadingMeta]
         ∧ pages_in_flight sys = 0%nat.
Proof.
  exact (proj2 (mount_cache_hit false 1 warm_caches demo_snapshot eq_refl)).
Defined.

(** C7, as stated, fails: with a fresh entry in the cache, activation still
    issues a network request, the metadata fetch. *)
Lemma mount_cache_hit_still_fetches_meta :
  fst (readCachedState false 1 warm_caches) = Some (Snapshot demo_snapshot)
  ∧ (∃ sys, mount false 1 warm_caches = Mounted sys [Api.FetchLibraryMeta])
  ∧ ¬ (∃ sys, mount false 1 warm_caches = Mounted sys []).
Proof.
  split; [reflexivity |]. split.
  - eexists. reflexivity.
  - intros [sys H]. vm_compute in H. discriminate.
Qed.

(** ** One paginated fetch at a time *)

Lemma count_delete (p : flight → bool) (l : list flight) (i : nat) (f : flight) :
  l !! i = Some f →
  count p l = (count p (delete i l) + Nat.b2n (p f))%nat.
Proof.
  revert i. induction l as [| g l IH]; intros [| i] H; try discriminate.
  - injection H as ->. unfold count. simpl.
    destruct (p f); simpl; lia.
  - specialize (IH i H). unfold count in *. simpl.
    destruct (p g); simpl; lia.
Qed.

(** The guard suppresses a call whose render saw a load in progress or the
    end of the data. *)
Lemma loadMoreClips_guarded (sys : System) :
  loadMoreClips_blocked (rendered sys) = true → loadMoreClips sys = (sys, []).
Proof. intros H. unfold loadMoreClips. by rewrite H. Qed.

(** C5. The code at the failing input.  The first page has arrived and has
    been rendered: that render saw no load in progress and more data to
    come.  Its prefetch timer and its scroll observer both call its
    [loadMoreClips] before the next render is committed.  The guard of the
    second call reads the render's [isLoadingMore], not the current one,
    which the first call has set: both calls request offset 30, two page
    fetches are in flight at once, and when both have arrived the page is in
    the list twice.  Only a call from the next render is suppressed. *)
Theorem second_call_of_one_render_fetches :
  let run := run_events eager_events cold_system in
  let both := [Settle 1 (GotPage second_page) 8;
               Settle 1 (GotPage second_page) 9] in
  State.isLoadingMore (rendered (fst run)) = false
  ∧ State.isLoadingMore (ui (fst run)) = true
  ∧ snd run = [pageCall false 30; pageCall false 30]
  ∧ pages_in_flight (fst run) = 2%nat
  ∧ State.clips (ui (fst run)) = [clip_a]
  ∧ State.clips (ui (fst (run_events both (fst run)))) = [clip_a; clip_b; clip_b]
  ∧ react InvokeLoadMore (fst run) ≠ (fst run, [])
  ∧ snd (run_events [Render; InvokeLoadMore] (fst run)) = [].
Proof.
  cbn zeta. repeat split; try reflexivity.
  vm_compute. discriminate.
Qed.

(** ** Load more *)

(** The call started last is the last in flight; when it completes, the
    calls in flight are those from before. *)
Lemma settle_last (v : bool) (st : State) (c : Caches) (fl : list flight)
    (shown : State) (f : flight) (r : reply) (now : Z) :
  settle (length fl) r now
    {| favoritesOnly := v; ui := st; caches := c; inflight := fl ++ [f];
       rendered := shown |}
  = let sys := {| favoritesOnly := v; ui := st; caches := c; inflight := fl;
                  rendered := shown |} in
    match f, r with
    | LoadingMeta, GotMeta meta => with_ui (loadMeta_fulfilled meta st) sys
    | LoadingMeta, Failed message => with_ui (loadMeta_rejected message st) sys
    | LoadingFirstPage closure, GotPage page =>
      loadFirstPage_fulfilled closure page now sys
    | LoadingFirstPage _, Failed message => loadFirstPage_rejected message sys
    | LoadingMore closure, GotPage page =>
      loadMoreClips_fulfilled closure page now sys
    | LoadingMore _, Failed message => loadMoreClips_rejected message sys
    | TogglingFavorite clip closure, GotNothing =>
      handleToggleFavorite_fulfilled clip closure now sys
    | TogglingFavorite clip _, Failed _ =>
      with_ui (handleToggleFavorite_rejected clip st) sys
    | _, _ => {| favoritesOnly := v; ui := st; caches := c;
                 inflight := fl ++ [f]; rendered := shown |}
    end.
Proof.
  unfold settle, landed. cbn [inflight favoritesOnly ui caches rendered].
  rewrite list_lookup_middle by reflexivity.
  rewrite delete_middle, app_nil_r.
  destruct f, r; reflexivity.
Qed.

(** C4. The code at the failing input.  After the first page (clip [a],
    tagged A and B) has been rendered, [loadMoreClips] is called; the
    metadata arrives while the page is on its way and sets the four option
    lists; then the page (clip [b], tagged A) arrives.  The clips are
    appended and the cursor moves, but the continuation builds the option
    lists from the values its render saw (lines 231-238): the options of the
    metadata are gone from the three tag lists, which are not the union of
    the previous options and the page's tags; and the snapshot it persists
    (lines 234, 241-249) is not the state on screen, which still has the
    position options of the metadata. *)
Theorem load_more_with_metadata_in_between :
  let before :=
    fst (run_events [Settle 1 (GotPage first_page) 5; Render; InvokeLoadMore;
                     Settle 0 (GotMeta demo_meta) 6] cold_system) in
  let after := settle 0 (GotPage second_page) 9 before in
  inflight before = [LoadingMore (ui after_first_page)]
  ∧ State.mainTagOptions (ui before) = ["guard"]
  ∧ State.videoTagOptions (ui before) = ["seminar"]
  ∧ State.subTagOptions (ui before) = ["sweep"]
  ∧ tagsFromClips Clip.mainTags (ClipsPage.clips second_page) = ["A"]
  ∧ State.clips (ui after) = [clip_a; clip_b]
  ∧ State.nextOffset (ui after) = 31
  ∧ State.mainTagOptions (ui after) = ["A"; "B"]
  ∧ State.videoTagOptions (ui after) = []
  ∧ State.subTagOptions (ui after) = []
  ∧ State.positionOptions (ui after) = ["mount"]
  ∧ memoryCache (caches after) !! cacheKey false
    = Some (Snapshot (CachedLibraryState.make [clip_a; clip_b] false 31
                        ["A"; "B"] [] [] [] 9))
  ∧ memoryCache (caches after) !! cacheKey false
    ≠ Some (Snapshot (snapshot_of (ui after) 9))
  ∧ ¬ (∀ x, x ∈ State.mainTagOptions (ui after)
            ↔ x ∈ State.mainTagOptions (ui before)
              ∨ observed Clip.mainTags second_page x).
Proof.
  cbn zeta.
  do 12 (split; [vm_compute; reflexivity |]).
  split; [vm_compute; discriminate |].
  intros H. specialize (H "guard").
  assert (Hin : "guard" ∈ ["A"; "B"]).
  { apply H. left. apply elem_of_cons. by left. }
  apply elem_of_cons in Hin as [Hin | Hin]; [discriminate |].
  apply elem_of_cons in Hin as [Hin | Hin]; [discriminate |].
  by apply elem_of_nil in Hin.
Qed.

(** The end-to-end scenario: from an empty cache the component requests
    offset 0, then offset 30 once, and nothing after the server reported the
    end; it ends idle with forty clips, and the cached snapshot holds the
    forty clips and [hasMoreFromServer = false]. *)
Example end_to_end :
  ∃ sys0 sys s,
    mount false 0 empty_caches
    = Mounted sys0 [Api.FetchLibraryMeta; pageCall false 0]
    ∧ run_events whole_library sys0 = (sys, [pageCall false 30])
    ∧ State.clips (ui sys) = numbered_clips 0 40
    ∧ State.hasMoreFromServer (ui sys) = false
    ∧ idle (ui sys)
    ∧ memoryCache (caches sys) !! cacheKey false = Some (Snapshot s)
    ∧ items (sessionStorage (caches sys)) !! cacheKey false
      = Some (JSON_stringify s)
    ∧ CachedLibraryState.clips s = numbered_clips 0 40
    ∧ CachedLibraryState.hasMoreFromServer s = false
    ∧ CachedLibraryState.cachedAt s = 600.
Proof.
  eexists _, _, _. split; [reflexivity |].
  split; [vm_compute; reflexivity |].
  repeat split; vm_compute; reflexivity.
Qed.

(** ** Favorite toggling *)

Lemma mark_id (clip : Clip) (b : bool) (item : Clip) :
  Clip.id (mark clip b item) = Clip.id item.
Proof. unfold mark. by destruct (String.eqb _ _). Qed.

Lemma mark_self (clip : Clip) (b : bool) :
  mark clip b clip = Clip.with_isFavorite b clip.
Proof. unfold mark. by rewrite String.eqb_refl. Qed.

Lemma mark_other (clip : Clip) (b : bool) (item : Clip) :
  Clip.id item ≠ Clip.id clip → mark clip b item = item.
Proof.
  intros H. unfold mark. by destruct (String.eqb_spec (Clip.id item) (Clip.id clip)).
Qed.

Lemma mark_mark (clip : Clip) (b b' : bool) (item : Clip) :
  mark clip b' (mark clip b item) = mark clip b' item.
Proof.
  unfold mark. destruct (String.eqb (Clip.id item) (Clip.id clip)) eqn:E.
  - simpl. by rewrite E.
  - by rewrite E.
Qed.

Lemma with_isFavorite_same (b : bool) (c : Clip) :
  Clip.isFavorite c = Some b → Clip.with_isFavorite b c = c.
Proof. destruct c. simpl. by intros ->. Qed.

Lemma next_of_involutive (clip : Clip) : negb (next_of clip) = Clip.favorite clip.
Proof. unfold next_of. apply negb_involutive. Qed.

(** The list after the roll-back, in terms of the list before the toggle. *)
Lemma rollback_clips (clip : Clip) (st : State) :
  State.clips (handleToggleFavorite_rejected clip
                 (handleToggleFavorite_optimistic clip st))
  = map (mark clip (Clip.favorite clip)) (State.clips st).
Proof.
  simpl. rewrite map_map, next_of_involutive.
  apply map_ext. intros item. apply mark_mark.
Qed.

Lemma rollback_selectedClip (clip : Clip) (st : State) :
  State.selectedClip (handleToggleFavorite_rejected clip
                        (handleToggleFavorite_optimistic clip st))
  = mark clip (Clip.favorite clip) <$> State.selectedClip st.
Proof.
  simpl. rewrite next_of_involutive.
  destruct (State.selectedClip st); simpl; [| reflexivity].
  by rewrite mark_mark.
Qed.

Lemma lookup_map {A B} (f : A → B) (l : list A) (i : nat) :
  map f l !! i = f <$> (l !! i).
Proof.
  revert i. induction l as [| x l IH]; intros [| i]; simpl; try reflexivity.
  apply IH.
Qed.

Lemma map_mark_same (clip : Clip) (b : bool) (l : list Clip) :
  (∀ item, item ∈ l → Clip.id item = Clip.id clip →
           Clip.isFavorite item = Some b) →
  map (mark clip b) l = l.
Proof.
  induction l as [| item l IH]; intros H; simpl; [reflexivity |].
  rewrite IH by (intros x Hx; apply H; by right).
  f_equal. unfold mark.
  destruct (String.eqb_spec (Clip.id item) (Clip.id clip)) as [E | E];
    [| reflexivity].
  apply with_isFavorite_same, H; [by left | exact E].
Qed.

(** The roll-back, run on whatever the state is when the failure
    arrives. *)
Lemma rollback_any_time (clip : Clip) (closure : State) (later : System)
    (j : nat) (message : string) (now : Z) :
  inflight later !! j = Some (TogglingFavorite clip closure) →
  let failed := settle j (Failed message) now later in
  caches failed = caches later
  ∧ State.clips (ui failed)
    = map (mark clip (Clip.favorite clip)) (State.clips (ui later))
  ∧ State.selectedClip (ui failed)
    = mark clip (Clip.favorite clip) <$> State.selectedClip (ui later)
  ∧ (∀ item, item ∈ State.clips (ui failed) → Clip.id item = Clip.id clip →
             Clip.isFavorite item = Some (Clip.favorite clip))
  ∧ (∀ item, State.selectedClip (ui failed) = Some item →
             Clip.id item = Clip.id clip →
             Clip.isFavorite item = Some (Clip.favorite clip)).
Proof.
  intros Hj failed. subst failed. unfold settle. rewrite Hj.
  cbn [with_ui landed ui caches]. unfold handleToggleFavorite_rejected.
  cbn [State.clips State.selectedClip State.set_clips State.set_selectedClip].
  rewrite next_of_involutive.
  assert (Hmark : ∀ item, Clip.id item = Clip.id clip →
                          Clip.isFavorite (mark clip (Clip.favorite clip) item)
                          = Some (Clip.favorite clip)).
  { intros item E. unfold mark. apply String.eqb_eq in E. rewrite E.
    by destruct item. }
  split; [reflexivity |]. split; [reflexivity |]. split; [reflexivity |].
  split.
  - intros item Hin Hid. apply list_elem_of_In, in_map_iff in Hin
      as (item0 & <- & _).
    apply Hmark. by rewrite mark_id in Hid.
  - intros item Hsel Hid.
    destruct (State.selectedClip (ui later)) as [item0 |]; [| discriminate].
    injection Hsel as <-. apply Hmark. by rewrite mark_id in Hid.
Qed.

(** C2, as the code has it.  Toggling the favorite of a clip of the list
    at once sets [isFavorite] to the negation of its truth value, on the
    list entry and on the selected-clip view when it shows that clip.  If
    [setClipFavorite] then fails, both are set back to the truth value from
    before the toggle: the entry is the old entry when its flag was present,
    and the old entry with [isFavorite: false] when the flag was absent.
    Entries with another id are never touched, and neither the toggle nor
    the roll-back writes or clears any cache entry.  The roll-back does the
    same whenever the failure arrives, on whatever the state is by then:
    every entry with the clip's id, and the selected-clip view if it shows
    one, gets the truth value from before the toggle, and the roll-back
    leaves both cache tiers as it finds them. *)
Theorem toggle_rollback (clip : Clip) (sys : System) (i : nat)
    (message : string) (now : Z) :
  State.clips (ui sys) !! i = Some clip →
  let started := handleToggleFavorite clip sys in
  let sys1 := fst started in
  let sys2 := settle (length (inflight sys)) (Failed message) now sys1 in
  let shows_clip := State.selectedClip (ui sys) = Some clip in
  let flipped := Clip.with_isFavorite (negb (Clip.favorite clip)) clip in
  let restored := Clip.with_isFavorite (Clip.favorite clip) clip in
  snd started = [Api.SetClipFavorite (Clip.id clip) (negb (Clip.favorite clip))]
  ∧ State.clips (ui sys1) !! i = Some flipped
  ∧ (shows_clip → State.selectedClip (ui sys1) = Some flipped)
  ∧ State.clips (ui sys2) !! i = Some restored
  ∧ (shows_clip → State.selectedClip (ui sys2) = Some restored)
  ∧ (is_Some (Clip.isFavorite clip) → restored = clip)
  ∧ (∀ j item, State.clips (ui sys) !! j = Some item →
               Clip.id item ≠ Clip.id clip →
               State.clips (ui sys1) !! j = Some item
               ∧ State.clips (ui sys2) !! j = Some item)
  ∧ ((∀ item, item ∈ State.clips (ui sys) → Clip.id item = Clip.id clip →
              Clip.isFavorite item = Some (Clip.favorite clip)) →
     State.clips (ui sys2) = State.clips (ui sys))
  ∧ caches sys1 = caches sys
  ∧ caches sys2 = caches sys
  ∧ inflight sys2 = inflight sys
  ∧ (∀ later j closure,
       inflight later !! j = Some (TogglingFavorite clip closure) →
       let failed := settle j (Failed message) now later in
       caches failed = caches later
       ∧ State.clips (ui failed)
         = map (mark clip (Clip.favorite clip)) (State.clips (ui later))
       ∧ State.selectedClip (ui failed)
         = mark clip (Clip.favorite clip) <$> State.selectedClip (ui later)
       ∧ (∀ item, item ∈ State.clips (ui failed) →
                  Clip.id item = Clip.id clip →
                  Clip.isFavorite item = Some (Clip.favorite clip))
       ∧ (∀ item, State.selectedClip (ui failed) = Some item →
                  Clip.id item = Clip.id clip →
                  Clip.isFavorite item = Some (Clip.favorite clip))).
Proof.
  intros Hi started sys1 sys2 shows_clip flipped restored.
  subst started sys1 sys2 shows_clip flipped restored.
  unfold handleToggleFavorite. cbn [fst snd]. rewrite settle_last.
  cbn zeta. cbn [with_ui ui caches inflight favoritesOnly].
  rewrite rollback_clips, rollback_selectedClip.
  unfold handleToggleFavorite_optimistic, next_of. simpl.
  rewrite !lookup_map, Hi. simpl. rewrite !mark_self.
  split; [reflexivity |]. split; [reflexivity |].
  split; [intros ->; simpl; by rewrite mark_self |].
  split; [reflexivity |].
  split; [intros ->; simpl; by rewrite mark_self |].
  split.
  { intros [b Hb]. apply with_isFavorite_same.
    unfold Clip.favorite. by rewrite Hb. }
  split.
  { intros j item Hj Hne. rewrite !lookup_map, Hj. simpl.
    by rewrite !mark_other. }
  split; [apply map_mark_same |].
  split; [reflexivity |]. split; [reflexivity |]. split; [reflexivity |].
  intros later j closure Hj. by apply (rollback_any_time clip closure).
Qed.

Lemma toggle_rollback_witness :
  State.clips
    (ui (settle 0 (Failed "Failed to update favorite") 9
           (fst (handleToggleFavorite clip_a browsing_system)))) !! 0%nat
  = Some clip_a
  ∧ caches (settle 0 (Failed "Failed to update favorite") 9
              (fst (handleToggleFavorite clip_a browsing_system)))
    = warm_caches.
Proof.
  pose proof (toggle_rollback clip_a browsing_system 0
                "Failed to update favorite" 9 eq_refl)
    as (_ & _ & _ & H4 & _ & _ & _ & _ & _ & H10 & _).
  split; [exact H4 | exact H10].
Defined.

(** C2, as stated, fails on two counts.  A clip whose [isFavorite] is absent
    shows [isFavorite: true] after the toggle and [isFavorite: false] after
    the roll-back, which is not the entry from before the toggle.  And a
    cache entry with the refused value can be written: when [loadMoreClips]
    is called after the click and its page arrives before the failure, the
    snapshot it persists holds the clip with the optimistic flag (lines 234
    and 241), and the roll-back, which sets the list back, leaves that
    snapshot in the cache. *)
Lemma rollback_is_not_exact :
  let sys1 := fst (handleToggleFavorite clip_u unflagged_system) in
  let sys2 := settle 0 (Failed "Failed to update favorite") 9 sys1 in
  let overlapped :=
    fst (run_events [ClickFavorite clip_a; Render; InvokeLoadMore;
                     Settle 2 (GotPage second_page) 8;
                     Settle 1 (Failed "Failed to update favorite") 9]
                    after_first_page) in
  (State.clips (ui unflagged_system) = [clip_u]
   ∧ Clip.isFavorite clip_u = None
   ∧ State.clips (ui sys1) = [Clip.with_isFavorite true clip_u]
   ∧ State.clips (ui sys2) = [Clip.with_isFavorite false clip_u]
   ∧ State.clips (ui sys2) ≠ State.clips (ui unflagged_system)
   ∧ State.selectedClip (ui sys2) ≠ State.selectedClip (ui unflagged_system))
  ∧ (State.clips (ui after_first_page) = [clip_a]
     ∧ Clip.isFavorite clip_a = Some true
     ∧ State.clips (ui overlapped) = [clip_a; clip_b]
     ∧ ∃ s, memoryCache (caches overlapped) !! cacheKey false = Some (Snapshot s)
            ∧ CachedLibraryState.clips s
              = [Clip.with_isFavorite false clip_a; clip_b]).
Proof.
  cbn zeta. split.
  - repeat split; discriminate.
  - split; [reflexivity |]. split; [reflexivity |]. split; [reflexivity |].
    eexists. split; [vm_compute; reflexivity | reflexivity].
Qed.

Lemma filter_out_marked (clip : Clip) (b : bool) (l : list Clip) :
  List.filter (fun item => negb (String.eqb (Clip.id item) (Clip.id clip)))
              (map (mark clip b) l)
  = List.filter (fun item => negb (String.eqb (Clip.id item) (Clip.id clip))) l.
Proof.
  induction l as [| item l IH]; simpl; [reflexivity |].
  rewrite mark_id, IH.
  destruct (String.eqb_spec (Clip.id item) (Clip.id clip)) as [E | E]; simpl;
    [reflexivity |].
  by rewrite mark_other.
Qed.

(** The success branch in favorites-only mode (lines 377-391): the clips
    with the id of the unfavorited clip are gone from the accumulated list,
    the others stay in order, and the snapshot with the resulting list is
    written to the favorites cache entry (memory tier, and persistent tier
    when the store takes writes).  [setSelectedClip(null)] is called
    without a test. *)
Lemma unfavorite_in_favorites_view (clip : Clip) (closure : State)
    (now : Z) (sys : System) :
  favoritesOnly sys = true →
  Clip.favorite clip = true →
  let sys' := handleToggleFavorite_fulfilled clip closure now sys in
  State.clips (ui sys')
  = List.filter (fun item => negb (String.eqb (Clip.id item) (Clip.id clip)))
                (State.clips (ui sys))
  ∧ (∀ item, item ∈ State.clips (ui sys')
             ↔ item ∈ State.clips (ui sys) ∧ Clip.id item ≠ Clip.id clip)
  ∧ State.selectedClip (ui sys') = None
  ∧ (∃ s, memoryCache (caches sys') !! cacheKey true = Some (Snapshot s)
          ∧ CachedLibraryState.clips s = State.clips (ui sys')
          ∧ CachedLibraryState.cachedAt s = now
          ∧ (writable (sessionStorage (caches sys)) →
             items (sessionStorage (caches sys')) !! cacheKey true
             = Some (JSON_stringify s))).
Proof.
  intros Hv Hfav sys'. subst sys'.
  unfold handleToggleFavorite_fulfilled, next_of. rewrite Hv, Hfav. simpl.
  split; [reflexivity |]. split; [| split; [reflexivity |]].
  - intros item. rewrite elem_of_List_filter.
    destruct (String.eqb_spec (Clip.id item) (Clip.id clip)); simpl;
      intuition congruence.
  - eexists. split; [apply persistCache_memory |].
    split; [reflexivity |]. split; [reflexivity |].
    intros Hw. apply persistCache_session.
    by apply clearLibraryCaches_writable.
Qed.

(** From the click to the success of the call, with nothing in between:
    the list is the one from before the click without the clip, and no clip
    is selected. *)
Corollary unfavorite_from_click (clip : Clip) (now : Z) (sys : System) :
  favoritesOnly sys = true →
  Clip.favorite clip = true →
  let sys' := settle (length (inflight sys)) GotNothing now
                (fst (handleToggleFavorite clip sys)) in
  State.clips (ui sys')
  = List.filter (fun item => negb (String.eqb (Clip.id item) (Clip.id clip)))
                (State.clips (ui sys))
  ∧ State.selectedClip (ui sys') = None
  ∧ inflight sys' = inflight sys.
Proof.
  intros Hv Hfav sys'. subst sys'.
  unfold handleToggleFavorite. cbn [fst]. rewrite settle_last. cbn zeta.
  unfold handleToggleFavorite_fulfilled, next_of.
  cbn [favoritesOnly]. rewrite Hv, Hfav. simpl.
  by rewrite filter_out_marked.
Qed.

(** C6. The code at the failing input.  The favorites view shows [clip_a]
    and [clip_b]; the user unfavorites [clip_a] and, while the call is in
    flight, opens [clip_b].  When the call succeeds, [clip_a] is removed
    from the list, and the panel showing [clip_b] is closed although
    [clip_b] is not the unfavorited clip: line 378 calls
    [setSelectedClip(null)] without the test [prev.id === clip.id] that the
    optimistic update (line 373) and the roll-back (lines 410-412) make. *)
Theorem unfavorite_clears_other_selection :
  let before := fst (run_events unfavorite_then_browse favorites_system) in
  let after := settle 0 GotNothing 7 before in
  State.selectedClip (ui before) = Some clip_b
  ∧ State.selectedClip (ui after) = None
  ∧ State.clips (ui after) = [clip_b]
  ∧ ¬ cleared_iff_selected clip_a (ui before) (ui after).
Proof.
  split; [reflexivity |]. split; [reflexivity |]. split; [reflexivity |].
  intros [H _].
  destruct H as (s & Hs & Hid); [split; [discriminate | reflexivity] |].
  injection Hs as <-. discriminate Hid.
Qed.

(** ** Filtering *)

Lemma startsWith_spec (s q : string) :
  startsWith s q = true ↔ ∃ post, s = q +:+ post.
Proof.
  revert s. induction q as [| b q IH]; intros s.
  - destruct s; simpl; split; eauto.
  - destruct s as [| a s]; simpl.
    + split; [discriminate | intros [post H]; discriminate].
    + rewrite andb_true_iff, IH. split.
      * intros [E [post ->]]. apply Ascii.eqb_eq in E as ->. eauto.
      * intros [post H]. injection H as -> ->. split; [apply Ascii.eqb_refl | eauto].
Qed.

Lemma includes_spec (s q : string) :
  includes s q = true ↔ ∃ pre post, s = pre +:+ q +:+ post.
Proof.
  induction s as [| a s IH].
  - cbn [includes]. rewrite orb_false_r, startsWith_spec. split.
    + intros [post H]. exists EmptyString, post. exact H.
    + intros (pre & post & H). destruct pre; simpl in H; [eauto | discriminate].
  - cbn [includes]. rewrite orb_true_iff, startsWith_spec, IH. split.
    + intros [[post H] | (pre & post & H)].
      * exists EmptyString, post. exact H.
      * exists (String a pre), post. simpl. by rewrite H.
    + intros (pre & post & H). destruct pre as [| a' pre]; simpl in H.
      * left. eauto.
      * right. injection H as -> ->. eauto.
Qed.

Lemma toLowerCase_app (a b : string) :
  toLowerCase (a +:+ b) = toLowerCase a +:+ toLowerCase b.
Proof. induction a as [| c a IH]; simpl; [reflexivity | by rewrite IH]. Qed.

Lemma toLowerCase_split (s x y : string) :
  toLowerCase s = x +:+ y →
  ∃ a b, s = a +:+ b ∧ toLowerCase a = x ∧ toLowerCase b = y.
Proof.
  revert s. induction x as [| c x IH]; intros s H.
  - exists EmptyString, s. auto.
  - destruct s as [| d s]; simpl in H; [discriminate |].
    injection H as Hc H. destruct (IH s H) as (a & b & -> & Ha & Hb).
    exists (String d a), b. simpl. by rewrite Hc, Ha.
Qed.

Lemma includes_ignoring_case (s q : string) :
  includes (toLowerCase s) (toLowerCase q) = true ↔ occurs_ignoring_case q s.
Proof.
  rewrite includes_spec. split.
  - intros (x & z & H).
    destruct (toLowerCase_split _ _ _ H) as (pre & rest & -> & Hpre & Hrest).
    destruct (toLowerCase_split _ _ _ Hrest) as (mid & post & -> & Hmid & Hpost).
    by exists pre, mid, post.
  - intros (pre & mid & post & -> & Hmid).
    exists (toLowerCase pre), (toLowerCase post).
    by rewrite !toLowerCase_app, Hmid.
Qed.

Lemma has_spec (selected : gset string) (x : string) :
  has selected x = true ↔ x ∈ selected.
Proof. unfold has. apply bool_decide_eq_true. Qed.

Lemma nonempty_spec (selected : gset string) :
  nonempty selected = true ↔ selected ≠ ∅.
Proof.
  unfold nonempty. rewrite Nat.ltb_lt.
  split.
  - intros H ->. rewrite size_empty in H. lia.
  - intros H. destruct (size selected) eqn:E; [| lia].
    apply size_empty_inv in E. by apply leibniz_equiv in E.
Qed.

Lemma existsb_has_spec (selected : gset string) (values : list string) :
  existsb (has selected) values = true ↔ some_selected selected values.
Proof.
  rewrite existsb_exists. unfold some_selected.
  split; intros (v & H1 & H2); exists v.
  - split; [by apply list_elem_of_In | by apply has_spec].
  - split; [by apply list_elem_of_In | by apply has_spec].
Qed.

Lemma matchesSearch_spec (query : string) (c : Clip) :
  matchesSearch (toLowerCase query) c = true ↔ search_accepts query c.
Proof.
  unfold matchesSearch, search_accepts.
  rewrite !orb_true_iff, !includes_ignoring_case, existsb_exists.
  split.
  - intros [[H | H] | (tag & H1 & H2)]; [by left | by right; left |].
    right. right. exists tag.
    split; [by apply list_elem_of_In | by apply includes_ignoring_case].
  - intros [H | [H | (tag & H1 & H2)]]; [by left; left | by left; right |].
    right. exists tag.
    split; [by apply list_elem_of_In | by apply includes_ignoring_case].
Qed.

Lemma matchesPosition_spec (selected : gset string) (c : Clip) :
  matchesPosition selected c = true ↔ labelled_position_selected selected c.
Proof.
  unfold matchesPosition, labelled_position_selected.
  destruct (Clip.position c) as [p |].
  - rewrite andb_true_iff, negb_true_iff, has_spec. split.
    + intros [H1 H2]. exists p. split; [reflexivity |]. split; [| exact H2].
      by apply String.eqb_neq.
    + intros (p' & [= <-] & H1 & H2). split; [by apply String.eqb_neq | exact H2].
  - split; [discriminate | intros (p & H & _); discriminate].
Qed.

Lemma filter_if_eq {A} (b : bool) (p : A → bool) (l : list A) :
  (if b then List.filter p l else l) = List.filter (fun x => implb b (p x)) l.
Proof.
  destruct b; simpl; [reflexivity |].
  induction l as [| x l IH]; simpl; [reflexivity | by rewrite <- IH].
Qed.

Lemma filter_twice {A} (p q : A → bool) (l : list A) :
  List.filter p (List.filter q l) = List.filter (fun x => q x && p x) l.
Proof.
  induction l as [| x l IH]; simpl; [reflexivity |].
  destruct (q x); simpl; [destruct (p x) |]; by rewrite IH.
Qed.

Lemma filteredClips_one_pass (st : State) :
  filteredClips st
  = let result := List.filter (passes st) (State.clips st) in
    match State.sortMode st with
    | shortest =>
      sort_by (fun a b => Clip.duration a - Clip.duration b <=? 0) result
    | longest =>
      sort_by (fun a b => Clip.duration b - Clip.duration a <=? 0) result
    | default_order => result
    end.
Proof.
  unfold filteredClips. cbn zeta.
  rewrite !filter_if_eq, !filter_twice. reflexivity.
Qed.

Lemma filteredClips_perm (st : State) :
  filteredClips st ≡ₚ List.filter (passes st) (State.clips st).
Proof.
  rewrite filteredClips_one_pass. cbn zeta.
  destruct (State.sortMode st); [reflexivity | apply sort_by_perm ..].
Qed.

Lemma implb_spec (b c : bool) (P Q : Prop) :
  (b = true ↔ P) → (c = true ↔ Q) → (implb b c = true ↔ (P → Q)).
Proof. destruct b, c; simpl; intuition discriminate. Qed.

Lemma passes_spec (st : State) (c : Clip) :
  passes st c = true ↔ accepted labelled_position_selected st c.
Proof.
  unfold passes. rewrite !andb_true_iff.
  rewrite (implb_spec _ _ (State.searchQuery st ≠ "")
             (search_accepts (State.searchQuery st) c));
    [| rewrite negb_true_iff; apply String.eqb_neq | apply matchesSearch_spec].
  split.
  - intros (H1 & H2 & H3 & H4 & H5 & H6). split.
    + exact H1.
    + intros Hn. apply existsb_has_spec. simpl. rewrite orb_false_r.
      apply nonempty_spec in Hn. rewrite Hn in H2. exact H2.
    + intros Hn. apply existsb_has_spec.
      apply nonempty_spec in Hn. rewrite Hn in H3. exact H3.
    + intros Hn. apply existsb_has_spec.
      apply nonempty_spec in Hn. rewrite Hn in H4. exact H4.
    + intros Hn. apply existsb_has_spec.
      apply nonempty_spec in Hn. rewrite Hn in H5. exact H5.
    + intros Hn. apply matchesPosition_spec.
      apply nonempty_spec in Hn. rewrite Hn in H6. exact H6.
  - intros [H1 H2 H3 H4 H5 H6]. repeat split.
    + exact H1.
    + destruct (nonempty (State.selectedTypes st)) eqn:E; [| reflexivity].
      apply nonempty_spec, H2, existsb_has_spec in E. simpl in *.
      by rewrite orb_false_r in E.
    + destruct (nonempty (State.selectedMainTags st)) eqn:E; [| reflexivity].
      by apply nonempty_spec, H3, existsb_has_spec in E.
    + destruct (nonempty (State.selectedVideoTags st)) eqn:E; [| reflexivity].
      by apply nonempty_spec, H4, existsb_has_spec in E.
    + destruct (nonempty (State.selectedSubTags st)) eqn:E; [| reflexivity].
      by apply nonempty_spec, H5, existsb_has_spec in E.
    + destruct (nonempty (State.selectedPositions st)) eqn:E; [| reflexivity].
      by apply nonempty_spec, H6, matchesPosition_spec in E.
Qed.

(** C1, as the code has it.  For every accumulated list and every selection
    state, the filtered result contains exactly the clips of the list that
    every facet with a selection accepts, each as often as the list has it:
    the search facet when the query, case ignored, occurs in the title, the
    summary or a general tag; the type and tag facets when one of the
    clip's values is selected; the position facet when the clip has a
    non-empty position and it is selected.  A facet without selection
    accepts every clip.  Without a sort mode the result keeps the order of
    the list. *)
Theorem filteredClips_exactly_the_accepted (st : State) :
  (∀ c, c ∈ filteredClips st
        ↔ c ∈ State.clips st ∧ accepted labelled_position_selected st c)
  ∧ (∃ keep : Clip → bool,
       (∀ c, keep c = true ↔ accepted labelled_position_selected st c)
       ∧ filteredClips st ≡ₚ List.filter keep (State.clips st)
       ∧ (State.sortMode st = default_order →
          filteredClips st = List.filter keep (State.clips st))).
Proof.
  split.
  - intros c. rewrite filteredClips_perm, elem_of_List_filter, passes_spec.
    reflexivity.
  - exists (passes st). split; [apply passes_spec |].
    split; [apply filteredClips_perm |].
    intros Hs. rewrite filteredClips_one_pass. cbn zeta. by rewrite Hs.
Qed.

Example filter_main_tag_A : filteredClips (select ∅ {["A"]}) = [clip_a; clip_b].
Proof. vm_compute. reflexivity. Qed.

Example filter_main_tags_A_B :
  filteredClips (select ∅ {["A"; "B"]}) = [clip_a; clip_b].
Proof. vm_compute. reflexivity. Qed.

Example filter_main_tag_A_and_Concept :
  filteredClips (select {["Concept"]} {["A"]}) = [clip_a].
Proof. vm_compute. reflexivity. Qed.

(** C1, as stated, fails on the position facet: a clip whose position is
    the empty string is rejected even when the empty string is among the
    selected positions. *)
Lemma blank_position_is_rejected :
  clip_e ∈ State.clips select_blank_position
  ∧ accepted position_selected select_blank_position clip_e
  ∧ filteredClips select_blank_position = []
  ∧ ¬ (clip_e ∈ filteredClips select_blank_position
       ↔ clip_e ∈ State.clips select_blank_position
         ∧ accepted position_selected select_blank_position clip_e).
Proof.
  assert (Hin : clip_e ∈ State.clips select_blank_position) by (simpl; set_solver).
  assert (Hacc : accepted position_selected select_blank_position clip_e).
  { split; simpl; try (intros H; by destruct H).
    intros _. exists "". split; [reflexivity | set_solver]. }
  assert (Hout : filteredClips select_blank_position = [])
    by (vm_compute; reflexivity).
  split; [exact Hin |]. split; [exact Hacc |]. split; [exact Hout |].
  intros [_ H]. specialize (H (conj Hin Hacc)). rewrite Hout in H.
  by apply elem_of_nil in H.
Qed.

(** ** The remote data client *)

Lemma ok_spec (r : Api.Response) :
  Api.ok r = true ↔ 200 <= Api.status r <= 299.
Proof. unfold Api.ok. rewrite andb_true_iff, !Z.leb_le. reflexivity. Qed.

Lemma run_perform (API_BASE : string) (op : Api.operation)
    (net : list Api.Request → Api.Request → Api.answer) :
  ∃ req, first_request (Api.perform API_BASE op) = Some req
         ∧ Api.run net (Api.perform API_BASE op) = ([req], outcome op (net [] req)).
Proof.
  destruct op; (eexists; split; [reflexivity |]);
    unfold Api.run, Api.perform, Api.fetchLibraryMeta, Api.fetchLibraryClips,
      Api.fetchFavoriteClips, Api.setClipFavorite, Api.fetchVideos, Api.fetch,
      Api.response_json, outcome;
    cbn [Api.run_from app];
    (match goal with |- context [net [] ?r] => destruct (net [] r) as [| resp] end);
    try reflexivity;
    destruct (Api.ok resp); cbn [negb Api.run_from]; try reflexivity;
    destruct (Api.payload resp) as [body |]; cbn [Api.run_from resolution];
    try reflexivity.
  by destruct (Api.member "videos" body).
Qed.

(** C8, as the code has it.  Each of the five operations sends exactly one
    request, whatever the answer.  On a response whose status is outside
    200-299 it fails with an [Error] carrying the message of its endpoint,
    and the five messages tell the endpoints apart.  On a 2xx response the
    favorite update resolves to nothing; the others read the body as JSON
    and resolve to it, except that the video list resolves to the [videos]
    member of the body. *)
Theorem client_outcomes (API_BASE : string) (op : Api.operation)
    (net : list Api.Request → Api.Request → Api.answer)
    (req : Api.Request) (r : Api.Response) :
  first_request (Api.perform API_BASE op) = Some req →
  net [] req = Api.Responded r →
  let result := Api.run net (Api.perform API_BASE op) in
  fst result = [req]
  ∧ (¬ 200 <= Api.status r <= 299 →
     snd result = inl (Api.Error (failure_message op)))
  ∧ (200 <= Api.status r <= 299 →
     (∀ clipId value, op = Api.SetClipFavorite clipId value →
                      snd result = inr Api.undefined)
     ∧ (∀ body, Api.payload r = Some body → snd result = resolution op body))
  ∧ (∀ op', failure_message op' = failure_message op → same_endpoint op' op).
Proof.
  intros Hreq Hnet result. subst result.
  destruct (run_perform API_BASE op net) as (req' & Hreq' & Hrun).
  rewrite Hreq in Hreq'. injection Hreq' as <-.
  rewrite Hrun, Hnet. cbn [fst snd outcome].
  split; [reflexivity |]. split; [| split].
  - intros Hbad. rewrite <- ok_spec in Hbad. apply not_true_is_false in Hbad.
    by rewrite Hbad.
  - intros Hok. apply ok_spec in Hok. rewrite Hok. split.
    + by intros clipId value ->.
    + intros body Hbody. rewrite Hbody. by destruct op.
  - intros op' H. destruct op, op'; simpl in *; try exact I; discriminate.
Qed.

Lemma client_outcomes_witness :
  Api.run (always 503 None)
    (Api.fetchLibraryClips "https://api.example" (Some 30) (Some 60))
  = ([clips_request], inl (Api.Error "Failed to load clips")).
Proof.
  pose proof (client_outcomes "https://api.example"
                (Api.FetchLibraryClips (Some 30) (Some 60))
                (always 503 None) clips_request
                {| Api.status := 503; Api.payload := None |}
                eq_refl eq_refl) as (H1 & H2 & _).
  simpl in H1, H2. specialize (H2 ltac:(lia)).
  apply injective_projections; [exact H1 | exact H2].
Defined.

(** C8, as stated, fails for [fetchVideos]: on a 2xx response it resolves to
    the [videos] member of the parsed body, not to the parsed body. *)
Lemma fetchVideos_unwraps_the_body :
  snd (Api.run (always 200 (Some videos_body)) (Api.fetchVideos ""))
  = inr (Api.JSON (Api.JArray []))
  ∧ snd (Api.run (always 200 (Some videos_body)) (Api.fetchVideos ""))
    ≠ inr (Api.JSON videos_body).
Proof. split; [reflexivity | discriminate]. Qed.

(** * Further properties of the code *)

(** ** The cache store: clearing, reading twice, remounting *)

Lemma clear_key_memory (c : Caches) (key : string) :
  memoryCache (clear_key c key) = delete key (memoryCache c).
Proof. unfold clear_key. by destruct (removeItem _ _). Qed.

Lemma clear_key_session (c : Caches) (key : string) :
  sessionStorage (clear_key c key)
  = if available (sessionStorage c)
    then {| items := delete key (items (sessionStorage c));
            available := true; full := full (sessionStorage c) |}
    else sessionStorage c.
Proof.
  unfold clear_key, removeItem.
  by destruct (available (sessionStorage c)) eqn:E; simpl; rewrite ?E.
Qed.

Lemma clearLibraryCaches_two_rounds (c : Caches) :
  clearLibraryCaches c = clear_key (clear_key c (cacheKey false)) (cacheKey true).
Proof. reflexivity. Qed.

Lemma clearLibraryCaches_memory (c : Caches) (v : bool) :
  memoryCache (clearLibraryCaches c) !! cacheKey v = None.
Proof.
  rewrite clearLibraryCaches_two_rounds, !clear_key_memory.
  destruct v; [apply lookup_delete_eq |].
  rewrite lookup_delete_ne by discriminate. apply lookup_delete_eq.
Qed.

Lemma clearLibraryCaches_session (c : Caches) (v : bool) :
  available (sessionStorage c) = true →
  available (sessionStorage (clearLibraryCaches c)) = true
  ∧ items (sessionStorage (clearLibraryCaches c)) !! cacheKey v = None.
Proof.
  intros Ha.
  rewrite clearLibraryCaches_two_rounds, !clear_key_session, Ha. simpl.
  split; [reflexivity |].
  destruct v; [apply lookup_delete_eq |].
  rewrite lookup_delete_ne by discriminate. apply lookup_delete_eq.
Qed.

Lemma clearLibraryCaches_unavailable (c : Caches) :
  available (sessionStorage c) = false →
  available (sessionStorage (clearLibraryCaches c)) = false.
Proof.
  intros Ha.
  rewrite clearLibraryCaches_two_rounds, !clear_key_session, Ha. simpl.
  by rewrite Ha.
Qed.

(** X1. After [clearLibraryCaches] neither variant has an entry in the
    memory tier nor, when the store can be reached, in the persistent tier;
    the next read of either variant is a miss at any time, and a mount of
    either variant requests page one again. *)
Theorem clearLibraryCaches_forces_reload (c : Caches) (v : bool) (now : Z) :
  let cleared := clearLibraryCaches c in
  memoryCache cleared !! cacheKey v = None
  ∧ (available (sessionStorage c) = true →
     items (sessionStorage cleared) !! cacheKey v = None)
  ∧ readCachedState v now cleared = (None, cleared)
  ∧ ∃ sys, mount v now cleared
           = Mounted sys [Api.FetchLibraryMeta; pageCall v 0]
           ∧ caches sys = cleared.
Proof.
  intros cleared.
  assert (Hread : readCachedState v now cleared = (None, cleared)).
  { unfold readCachedState. subst cleared.
    rewrite clearLibraryCaches_memory.
    unfold readCachedState_try, getItem.
    destruct (available (sessionStorage c)) eqn:Ha.
    - destruct (clearLibraryCaches_session c v Ha) as [-> ->]. reflexivity.
    - by rewrite (clearLibraryCaches_unavailable c Ha). }
  split; [apply clearLibraryCaches_memory |].
  split; [intros Ha; by apply clearLibraryCaches_session |].
  split; [exact Hread |].
  unfold mount. rewrite Hread. eexists. split; reflexivity.
Qed.

(** X2. Reading is idempotent and local.  A second read of the same variant
    at the same instant returns what the first returned and leaves both
    tiers as the first left them; and a read of one variant, whether it
    hits, promotes an entry or removes a stale one, leaves the entry of the
    other variant untouched in both tiers. *)
Theorem readCachedState_idempotent (v : bool) (now : Z) (c : Caches) :
  let r := readCachedState v now c in
  readCachedState v now (snd r) = r
  ∧ memoryCache (snd r) !! cacheKey (negb v) = memoryCache c !! cacheKey (negb v)
  ∧ items (sessionStorage (snd r)) !! cacheKey (negb v)
    = items (sessionStorage c) !! cacheKey (negb v).
Proof.
  intros r. subst r. pose proof (cacheKey_negb v) as Hne.
  unfold readCachedState, readCachedState_try, getItem, removeItem, age_ge,
    age_lt.
  destruct (memoryCache c !! cacheKey v) as [[s | f] |] eqn:Hm; simpl;
    rewrite ?andb_false_r;
    try destruct (now - CachedLibraryState.cachedAt s <? CACHE_TTL_MS) eqn:Hs;
    simpl; rewrite ?Hm; simpl; rewrite ?Hs; try done;
    (destruct (available (sessionStorage c)) eqn:Ha; simpl;
     [| rewrite ?Hm, ?Ha; simpl; rewrite ?Hs, ?andb_false_r, ?Ha; done]);
    (destruct (items (sessionStorage c) !! cacheKey v)
       as [[| | [| [s' | f']]] |] eqn:Hi; simpl;
     rewrite ?geb_ltb;
     try destruct (now - CachedLibraryState.cachedAt s' <? CACHE_TTL_MS) eqn:Hs';
     simpl;
     rewrite ?Hm, ?Ha, ?Hi, ?lookup_insert_eq, ?lookup_delete_eq,
       ?lookup_insert_ne, ?lookup_delete_ne by done;
     simpl;
     rewrite ?Hs, ?Hs', ?andb_false_r, ?Ha, ?Hi, ?lookup_delete_eq; simpl;
     rewrite ?geb_ltb, ?Hs', ?insert_insert_eq; done).
Qed.


(** X3. A written snapshot survives a remount for ten minutes and no
    longer.  Mounting the variant while the snapshot is fresh shows exactly
    the snapshot's clips, cursor and option lists, idle, with no page
    request; mounting once it has expired (the store not being over quota)
    starts from the empty list and requests page one. *)
Theorem snapshot_survives_remount (v : bool) (s : CachedLibraryState)
    (c : Caches) (now : Z) :
  let written := writeCachedState v s c in
  (now - CachedLibraryState.cachedAt s < CACHE_TTL_MS →
   ∃ sys, mount v now written = Mounted sys [Api.FetchLibraryMeta]
          ∧ hydrated_from s (ui sys) ∧ idle (ui sys) ∧ caches sys = written)
  ∧ (CACHE_TTL_MS <= now - CachedLibraryState.cachedAt s →
     available (sessionStorage c) && full (sessionStorage c) = false →
     ∃ sys, mount v now written
            = Mounted sys [Api.FetchLibraryMeta; pageCall v 0]
            ∧ State.clips (ui sys) = []
            ∧ State.isLoading (ui sys) = true
            ∧ memoryCache (caches sys) !! cacheKey v = Some (Snapshot s)).
Proof.
  intros written. subst written. split.
  - intros Hfresh. unfold mount. rewrite read_after_write_fresh by done.
    eexists. split; [reflexivity |]. repeat split.
  - intros Hstale Hq.
    destruct (read_after_write_stale v s c now Hq Hstale) as [Hnone _].
    assert (Hmem : memoryCache
                     (snd (readCachedState v now (writeCachedState v s c)))
                   !! cacheKey v = Some (Snapshot s)).
    { revert Hnone. unfold readCachedState.
      rewrite writeCachedState_memory. simpl.
      destruct (Z.ltb_spec (now - CachedLibraryState.cachedAt s) CACHE_TTL_MS);
        [lia |].
      unfold readCachedState_try, getItem, removeItem.
      destruct (available (sessionStorage (writeCachedState v s c))); simpl;
        [| intros _; apply writeCachedState_memory].
      destruct (items (sessionStorage (writeCachedState v s c)) !! cacheKey v)
        as [[| | [| parsed]] |]; simpl;
        try (intros _; apply writeCachedState_memory).
      destruct (age_ge now (cachedAt_of parsed) CACHE_TTL_MS); simpl;
        [intros _; apply writeCachedState_memory | discriminate]. }
    unfold mount.
    destruct (readCachedState v now (writeCachedState v s c)) as [r c'].
    simpl in Hnone, Hmem. subst r.
    eexists. split; [reflexivity |]. repeat split. exact Hmem.
Qed.

(** ** Runs of the component *)

(** One round on a render that is up to date. *)
Lemma load_more_round (sys : System) (page : ClipsPage) (now : Z) :
  loadMoreClips_blocked (ui sys) = false →
  run_events [Render; InvokeLoadMore;
              Settle (length (inflight sys)) (GotPage page) now] sys
  = (loadMoreClips_fulfilled (ui sys) page now
       {| favoritesOnly := favoritesOnly sys;
          ui := State.set_errorMessage None
                  (State.set_isLoadingMore true (ui sys));
          caches := caches sys;
          inflight := inflight sys;
          rendered := ui sys |},
     [pageCall (favoritesOnly sys) (State.nextOffset (ui sys))]).
Proof.
  intros Hgo. cbn [run_events react]. unfold loadMoreClips, commit.
  cbn [rendered ui favoritesOnly caches inflight]. rewrite Hgo.
  by rewrite settle_last.
Qed.

Lemma run_events_app (es1 es2 : list event) (sys : System) :
  run_events (es1 ++ es2) sys
  = let '(sys1, calls1) := run_events es1 sys in
    let '(sys2, calls2) := run_events es2 sys1 in
    (sys2, (calls1 ++ calls2)%list).
Proof.
  revert sys. induction es1 as [| e es1 IH]; intros sys; simpl.
  - by destruct (run_events es2 sys).
  - destruct (react e sys) as [sys1 calls1]. rewrite IH.
    destruct (run_events es1 sys1) as [sys2 calls2].
    destruct (run_events es2 sys2) as [sys3 calls3].
    by rewrite app_assoc.
Qed.

Lemma load_more_round_spec (sys : System) (page : ClipsPage) (now : Z) :
  loadMoreClips_blocked (ui sys) = false →
  ∃ sys1,
    run_events [Render; InvokeLoadMore;
                Settle (length (inflight sys)) (GotPage page) now] sys
    = (sys1, [pageCall (favoritesOnly sys) (State.nextOffset (ui sys))])
    ∧ State.clips (ui sys1) = (State.clips (ui sys) ++ ClipsPage.clips page)%list
    ∧ State.nextOffset (ui sys1) = ClipsPage.nextOffset page
    ∧ State.hasMoreFromServer (ui sys1) = ClipsPage.hasMore page
    ∧ loadMoreClips_blocked (ui sys1) = negb (ClipsPage.hasMore page)
    ∧ inflight sys1 = inflight sys
    ∧ favoritesOnly sys1 = favoritesOnly sys
    ∧ memoryCache (caches sys1) !! cacheKey (favoritesOnly sys)
      = Some (Snapshot (snapshot_of (ui sys1) now)).
Proof.
  intros Hgo. eexists. split; [by apply load_more_round |].
  unfold loadMoreClips_blocked in *.
  apply orb_false_iff in Hgo as [Hgo _].
  apply orb_false_iff in Hgo as [Hl _].
  unfold loadMoreClips_fulfilled. simpl. rewrite Hl. simpl.
  repeat split. apply persistCache_memory.
Qed.

(** X4. The background prefetch drains the server.  Started in a state
    that passes the guard, and handed the server's pages one round after the
    other, each round on the render of the state the round before left, it
    requests the current cursor and then each page's [nextOffset] in turn,
    appends every page in order, and after the last round holds the last
    page's cursor and [hasMore], with the snapshot of exactly that state in
    the memory tier. *)
Theorem prefetch_drains (sys : System) (pages : list (ClipsPage * Z)) :
  loadMoreClips_blocked (ui sys) = false →
  let got := served pages in
  let run := run_events (prefetch_rounds (length (inflight sys)) got) sys in
  State.clips (ui (fst run))
  = (State.clips (ui sys) ++ flat_map (fun p => ClipsPage.clips (fst p)) got)%list
  ∧ snd run
    = map (pageCall (favoritesOnly sys)) (cursors (State.nextOffset (ui sys)) got)
  ∧ inflight (fst run) = inflight sys
  ∧ match last got with
    | Some (page, now) =>
      State.hasMoreFromServer (ui (fst run)) = ClipsPage.hasMore page
      ∧ State.nextOffset (ui (fst run)) = ClipsPage.nextOffset page
      ∧ memoryCache (caches (fst run)) !! cacheKey (favoritesOnly sys)
        = Some (Snapshot (snapshot_of (ui (fst run)) now))
    | None => fst run = sys
    end.
Proof.
  revert sys. induction pages as [| [page now] rest IH]; intros sys Hgo.
  - simpl. rewrite app_nil_r. done.
  - destruct (load_more_round_spec sys page now Hgo)
      as (sys1 & Hrun & Hclips & Hoff & Hmore & Hblocked & Hfl & Hv & Hmem).
    cbn [served].
    destruct (ClipsPage.hasMore page) eqn:Emore.
    + specialize (IH sys1 Hblocked). cbn zeta in IH.
      rewrite Hfl, Hclips, Hoff, Hv in IH.
      destruct IH as (IHc & IHs & IHf & IHl).
      change (prefetch_rounds (length (inflight sys)) ((page, now) :: served rest))
        with ([Render; InvokeLoadMore;
               Settle (length (inflight sys)) (GotPage page) now]
              ++ prefetch_rounds (length (inflight sys)) (served rest))%list.
      rewrite run_events_app, Hrun.
      destruct (run_events (prefetch_rounds (length (inflight sys)) (served rest))
                           sys1) as [sys2 calls2].
      cbn [fst snd] in *.
      split; [by rewrite IHc, <- app_assoc |].
      split; [by rewrite IHs |].
      split; [exact IHf |].
      rewrite last_cons.
      destruct (last (served rest)) as [[page' now'] |]; [exact IHl |].
      subst sys2. by rewrite Emore.
    + change (prefetch_rounds (length (inflight sys)) [(page, now)])
        with [Render; InvokeLoadMore;
               Settle (length (inflight sys)) (GotPage page) now].
      rewrite Hrun. cbn [fst snd flat_map cursors map last].
      rewrite app_nil_r, ?Emore. done.
Qed.

Lemma prefetch_drains_witness :
  snd (run_events
         (prefetch_rounds (length (inflight after_first_page))
                          (served [(second_page, 9); (first_page, 12)]))
         after_first_page)
  = [pageCall false 30].
Proof.
  exact (proj1 (proj2 (prefetch_drains after_first_page
                         [(second_page, 9); (first_page, 12)] eq_refl))).
Defined.

(** A page fetch in flight is counted. *)
Lemma no_page_in_flight (sys : System) (i : nat) (f : flight) :
  pages_in_flight sys = 0%nat → inflight sys !! i = Some f →
  is_page_fetch f = false ∧ pages_in_flight (landed i sys) = 0%nat.
Proof.
  intros H0 E. pose proof (count_delete is_page_fetch _ _ _ E) as D.
  unfold pages_in_flight, count in *. cbn [landed inflight].
  destruct (is_page_fetch f); simpl in D; [lia |]. split; [done | lia].
Qed.

Lemma blocked_at_the_end (st : State) :
  State.hasMoreFromServer st = false → loadMoreClips_blocked st = true.
Proof. intros H. unfold loadMoreClips_blocked. rewrite H. apply orb_true_r. Qed.

Lemma rendered_settle (i : nat) (r : reply) (now : Z) (sys : System) :
  rendered (settle i r now sys) = rendered sys.
Proof.
  unfold settle. destruct (inflight sys !! i) as [[| | | clip closure] |];
    destruct r; try reflexivity.
  unfold handleToggleFavorite_fulfilled.
  by destruct (favoritesOnly (landed i sys) && negb (next_of clip)).
Qed.

Lemma react_exhausted (e : event) (sys : System) :
  State.hasMoreFromServer (ui sys) = false →
  loadMoreClips_blocked (rendered sys) = true →
  pages_in_flight sys = 0%nat →
  snd (react e sys) = toggle_calls [e]
  ∧ State.hasMoreFromServer (ui (fst (react e sys))) = false
  ∧ loadMoreClips_blocked (rendered (fst (react e sys))) = true
  ∧ pages_in_flight (fst (react e sys)) = 0%nat
  ∧ (length (State.clips (ui (fst (react e sys))))
     ≤ length (State.clips (ui sys)))%nat.
Proof.
  intros Hmore Hr H0. destruct e as [| | clip | selection | i r now].
  - simpl. repeat split; try done. by apply blocked_at_the_end.
  - simpl. rewrite loadMoreClips_guarded; done.
  - simpl. repeat split; [done | done | |].
    + unfold pages_in_flight in *. simpl.
      rewrite List.filter_app, length_app, H0. reflexivity.
    + by rewrite length_map.
  - simpl. done.
  - cbn [react fst snd toggle_calls omap]. split; [reflexivity |].
    rewrite rendered_settle.
    unfold settle. destruct (inflight sys !! i) as [f |] eqn:E; [| done].
    destruct (no_page_in_flight sys i f H0 E) as [Hf Hl].
    destruct f as [| closure | closure | clip closure]; try discriminate;
      destruct r as [meta | page | | message]; try done.
    + unfold handleToggleFavorite_fulfilled.
      destruct (favoritesOnly (landed i sys) && negb (next_of clip)); simpl;
        repeat split; try done.
      apply filter_length_le.
    + simpl. repeat split; try done. by rewrite length_map.
Qed.

Lemma run_events_exhausted (es : list event) (sys : System) :
  State.hasMoreFromServer (ui sys) = false →
  loadMoreClips_blocked (rendered sys) = true →
  pages_in_flight sys = 0%nat →
  snd (run_events es sys) = toggle_calls es
  ∧ State.hasMoreFromServer (ui (fst (run_events es sys))) = false
  ∧ pages_in_flight (fst (run_events es sys)) = 0%nat
  ∧ (length (State.clips (ui (fst (run_events es sys))))
     ≤ length (State.clips (ui sys)))%nat.
Proof.
  revert sys. induction es as [| e es IH]; intros sys Hmore Hr H0; [done |].
  destruct (react_exhausted e sys Hmore Hr H0) as (Hc & Hm & Hr1 & Hp & Hl).
  cbn [run_events]. destruct (react e sys) as [sys1 calls1].
  cbn [fst snd] in *.
  destruct (IH sys1 Hm Hr1 Hp) as (IHc & IHm & IHp & IHl).
  destruct (run_events es sys1) as [sys2 calls2]. cbn [fst snd] in *.
  split; [| split; [done | split; [done | lia]]].
  change (e :: es) with ([e] ++ es)%list.
  unfold toggle_calls in *. by rewrite omap_app, <- Hc, <- IHc.
Qed.

(** X5. Once the server has reported the end, no page fetch is in flight
    and the render on screen does not pass the guard (as every render
    committed since the end was reported), the component never requests a
    page or the metadata again, whatever happens to it, renders included:
    the only calls of a run are one [setClipFavorite] per click, in click
    order; [hasMoreFromServer] stays false, and the clip list never grows. *)
Theorem exhausted_library_stays_quiet (es : list event) (sys : System) :
  State.hasMoreFromServer (ui sys) = false →
  loadMoreClips_blocked (rendered sys) = true →
  pages_in_flight sys = 0%nat →
  let run := run_events es sys in
  snd run = toggle_calls es
  ∧ State.hasMoreFromServer (ui (fst run)) = false
  ∧ pages_in_flight (fst run) = 0%nat
  ∧ (length (State.clips (ui (fst run))) ≤ length (State.clips (ui sys)))%nat.
Proof. intros Hmore Hr H0. by apply run_events_exhausted. Qed.

Lemma exhausted_library_stays_quiet_witness :
  snd (run_events [InvokeLoadMore; ClickFavorite clip_a; Render; InvokeLoadMore]
                  favorites_system)
  = [Api.SetClipFavorite "a" false].
Proof.
  exact (proj1 (exhausted_library_stays_quiet
                  [InvokeLoadMore; ClickFavorite clip_a; Render; InvokeLoadMore]
                  favorites_system eq_refl eq_refl eq_refl)).
Defined.

Lemma load_more_failed_round (sys : System) (message : string) (now : Z) :
  loadMoreClips_blocked (ui sys) = false →
  ∃ sys1,
    run_events [Render; InvokeLoadMore;
                Settle (length (inflight sys)) (Failed message) now] sys
    = (sys1, [pageCall (favoritesOnly sys) (State.nextOffset (ui sys))])
    ∧ ui sys1 = State.set_errorMessage (Some message) (ui sys)
    ∧ caches sys1 = caches sys
    ∧ inflight sys1 = inflight sys
    ∧ favoritesOnly sys1 = favoritesOnly sys.
Proof.
  intros Hgo. eexists. split.
  - cbn [run_events react]. unfold loadMoreClips, commit.
    cbn [rendered ui favoritesOnly caches inflight]. rewrite Hgo.
    by rewrite settle_last.
  - unfold loadMoreClips_blocked in Hgo.
    apply orb_false_iff in Hgo as [Hgo _].
    apply orb_false_iff in Hgo as [_ Hm].
    destruct sys as [v st c fl shown]. destruct st. simpl in *. subst.
    repeat split.
Qed.

(** X6. A failed load-more loses nothing and is retried.  The failure
    leaves the clips, the cursor and both cache tiers as they were and shows
    the error message; the guard is open again, so the next round of the
    prefetch, on the next render, requests the same offset: as many
    identical requests as there are failures. *)
Theorem failed_load_more_is_retried (sys : System)
    (failures : list (string * Z)) :
  loadMoreClips_blocked (ui sys) = false →
  let run := run_events (failed_rounds (length (inflight sys)) failures) sys in
  snd run
  = replicate (length failures)
              (pageCall (favoritesOnly sys) (State.nextOffset (ui sys)))
  ∧ ui (fst run)
    = match last failures with
      | Some (message, _) => State.set_errorMessage (Some message) (ui sys)
      | None => ui sys
      end
  ∧ caches (fst run) = caches sys
  ∧ inflight (fst run) = inflight sys
  ∧ loadMoreClips_blocked (ui (fst run)) = false.
Proof.
  revert sys. induction failures as [| [message now] rest IH]; intros sys Hgo.
  - by simpl.
  - destruct (load_more_failed_round sys message now Hgo)
      as (sys1 & Hrun & Hui & Hc & Hfl & Hv).
    assert (Hgo1 : loadMoreClips_blocked (ui sys1) = false)
      by (rewrite Hui; exact Hgo).
    specialize (IH sys1 Hgo1). cbn zeta in IH.
    rewrite Hfl, Hv, Hc in IH. destruct IH as (IHs & IHu & IHc & IHf & IHb).
    cbn zeta.
    change (failed_rounds (length (inflight sys)) ((message, now) :: rest))
      with ([Render; InvokeLoadMore;
             Settle (length (inflight sys)) (Failed message) now]
            ++ failed_rounds (length (inflight sys)) rest)%list.
    rewrite run_events_app, Hrun.
    destruct (run_events (failed_rounds (length (inflight sys)) rest) sys1)
      as [sys2 calls2].
    cbn [fst snd] in *.
    split; [rewrite IHs, Hui; reflexivity |].
    split; [| done].
    rewrite last_cons, IHu.
    destruct (last rest) as [[message' now'] |]; rewrite Hui; reflexivity.
Qed.

Lemma failed_load_more_is_retried_witness :
  snd (run_events
         (failed_rounds (length (inflight after_first_page))
                        [("Failed to load clips", 7);
                         ("Failed to load clips", 8)])
         after_first_page)
  = [pageCall false 30; pageCall false 30].
Proof.
  exact (proj1 (failed_load_more_is_retried after_first_page
                  [("Failed to load clips", 7); ("Failed to load clips", 8)]
                  eq_refl)).
Defined.




Lemma mount_miss (v : bool) (now : Z) (c : Caches) (sys0 : System) :
  mount v now c = Mounted sys0 [Api.FetchLibraryMeta; pageCall v 0] →
  ui sys0 = State.set_errorMessage None (State.set_isLoading true initial_state)
  ∧ inflight sys0 = [LoadingMeta; LoadingFirstPage initial_state]
  ∧ favoritesOnly sys0 = v
  ∧ rendered sys0 = initial_state.
Proof.
  unfold mount. destruct (readCachedState v now c) as [[[s | f] |] c'].
  - discriminate.
  - destruct (truthy (Foreign f)); [discriminate |]. by intros [= <-].
  - by intros [= <-].
Qed.

Lemma elem_of_mergeOptions_nil (x : string) (fromClips : list string) :
  x ∈ mergeOptions [] fromClips ↔ x ∈ fromClips.
Proof. rewrite elem_of_mergeOptions, elem_of_nil. tauto. Qed.

(** X7. The first page and the metadata race.  After a mount that missed
    the cache, both orders of arrival end idle with the page's clips and the
    position options of the metadata.  If the metadata arrives first, the
    tag options are those of the metadata together with the tags of the
    page; if the page arrives first, the metadata replaces them, and the tags
    seen only in the page are gone.  Either way the snapshot written with
    the page knows nothing of the metadata: it holds the page's tags and no
    position options. *)
Theorem first_page_and_metadata (v : bool) (now : Z) (c : Caches)
    (sys0 : System) (meta : LibraryMeta) (page : ClipsPage) (t1 t2 : Z) :
  mount v now c = Mounted sys0 [Api.FetchLibraryMeta; pageCall v 0] →
  let meta_first :=
    fst (run_events [Settle 0 (GotMeta meta) t1; Settle 0 (GotPage page) t2]
                    sys0) in
  let page_first :=
    fst (run_events [Settle 1 (GotPage page) t1; Settle 0 (GotMeta meta) t2]
                    sys0) in
  (State.clips (ui meta_first) = ClipsPage.clips page
   ∧ State.positionOptions (ui meta_first) = LibraryMeta.positionOptions meta
   ∧ idle (ui meta_first) ∧ inflight meta_first = []
   ∧ options_of_meta_and_page (ui meta_first) meta page
   ∧ ∃ s, memoryCache (caches meta_first) !! cacheKey v = Some (Snapshot s)
          ∧ snapshot_of_page_alone s page t2)
  ∧ (State.clips (ui page_first) = ClipsPage.clips page
     ∧ State.positionOptions (ui page_first) = LibraryMeta.positionOptions meta
     ∧ idle (ui page_first) ∧ inflight page_first = []
     ∧ options_of_meta (ui page_first) meta
     ∧ ∃ s, memoryCache (caches page_first) !! cacheKey v = Some (Snapshot s)
            ∧ snapshot_of_page_alone s page t1).
Proof.
  intros Hmount. destruct (mount_miss _ _ _ _ Hmount) as (Hui & Hfl & Hv & Hr).
  destruct sys0 as [v0 st0 c0 fl0 shown0]. simpl in Hui, Hfl, Hv, Hr.
  subst v0 st0 fl0 shown0.
  assert (Hpage : ∀ closure_main closure_video closure_sub t c1,
             closure_main = [] → closure_video = [] → closure_sub = [] →
             ∃ s, memoryCache
                    (persistCache v (ClipsPage.clips page) (ClipsPage.hasMore page)
                       (ClipsPage.nextOffset page)
                       (mergeOptions closure_main
                          (tagsFromClips Clip.mainTags (ClipsPage.clips page)))
                       (mergeOptions closure_video
                          (tagsFromClips Clip.videoTags (ClipsPage.clips page)))
                       (mergeOptions closure_sub
                          (tagsFromClips Clip.subTags (ClipsPage.clips page)))
                       [] t c1) !! cacheKey v = Some (Snapshot s)
                  ∧ snapshot_of_page_alone s page t).
  { intros ? ? ? t c1 -> -> ->. eexists. split; [apply persistCache_memory |].
    unfold snapshot_of_page_alone. simpl.
    split; [reflexivity |]. split; [reflexivity |]. split; [reflexivity |].
    split; [| split; [| split; [| done]]];
      intros x; rewrite elem_of_mergeOptions_nil; apply elem_of_tagsFromClips. }
  cbn zeta. split.
  - split; [reflexivity |]. split; [reflexivity |]. split; [by split |].
    split; [reflexivity |]. split.
    + unfold options_of_meta_and_page. simpl.
      split; [| split]; intros x;
        rewrite elem_of_mergeOptions, elem_of_tagsFromClips; reflexivity.
    + by apply Hpage.
  - split; [reflexivity |]. split; [reflexivity |]. split; [by split |].
    split; [reflexivity |]. split; [by repeat split |].
    by apply Hpage.
Qed.

Lemma first_page_and_metadata_witness :
  State.mainTagOptions
    (ui (fst (run_events [Settle 1 (GotPage first_page) 5;
                          Settle 0 (GotMeta demo_meta) 6] cold_system)))
  = ["guard"].
Proof.
  exact (proj1 (proj1 (proj2 (proj2 (proj2 (proj2 (proj2
           (first_page_and_metadata false 0 empty_caches cold_system demo_meta
              first_page 5 6 eq_refl)))))))).
Defined.

(** ** Order of the filtered clips *)

Section SortByOrder.
Context {A : Type} (le : A → A → bool).
Hypothesis le_total : ∀ a b, le a b = true ∨ le b a = true.
Hypothesis le_trans : ∀ a b c, le a b = true → le b c = true → le a c = true.

Lemma insert_sorted_Forall (P : A → Prop) (x : A) (l : list A) :
  P x → Forall P l → Forall P (insert_sorted le x l).
Proof.
  intros Hx Hl. induction Hl as [| y l Hy Hl IH]; simpl.
  - by constructor.
  - destruct (le x y); repeat constructor; done.
Qed.

Lemma insert_sorted_sorted (x : A) (l : list A) :
  StronglySorted (λ a b, le a b = true) l →
  StronglySorted (λ a b, le a b = true) (insert_sorted le x l).
Proof.
  induction 1 as [| y l Hl IH Hy]; simpl.
  - repeat constructor.
  - destruct (le x y) eqn:Hxy.
    + constructor; [by constructor |].
      constructor; [exact Hxy |].
      eapply Forall_impl; [exact Hy |]. intros z Hz. by eapply le_trans.
    + constructor; [exact IH |].
      apply insert_sorted_Forall; [| exact Hy].
      destruct (le_total x y) as [H | H]; [congruence | exact H].
Qed.

Lemma sort_by_sorted (l : list A) :
  StronglySorted (λ a b, le a b = true) (sort_by le l).
Proof.
  induction l as [| x l IH]; simpl; [constructor |].
  by apply insert_sorted_sorted.
Qed.

End SortByOrder.

Lemma StronglySorted_weaken {A} (R S : A → A → Prop) (l : list A) :
  (∀ a b, R a b → S a b) → StronglySorted R l → StronglySorted S l.
Proof.
  intros HRS. induction 1 as [| x l Hl IH Hx]; constructor; [exact IH |].
  eapply Forall_impl; [exact Hx |]. intros y. apply HRS.
Qed.

Section SortByKey.
Context {A : Type} (key : A → Z) (le : A → A → bool).
Hypothesis le_key : ∀ a b, le a b = (key a <=? key b).

Lemma sort_by_key_sorted (l : list A) :
  StronglySorted (λ a b, key a <= key b) (sort_by le l).
Proof.
  apply (StronglySorted_weaken (λ a b, le a b = true)).
  - intros a b. rewrite le_key. apply Z.leb_le.
  - apply sort_by_sorted.
    + intros a b. rewrite !le_key, !Z.leb_le. lia.
    + intros a b c. rewrite !le_key, !Z.leb_le. lia.
Qed.

(** Stability: the elements of one key keep the order they had. *)
Lemma insert_sorted_stable (d : Z) (x : A) (l : list A) :
  List.filter (λ a, key a =? d) (insert_sorted le x l)
  = List.filter (λ a, key a =? d) (x :: l).
Proof.
  induction l as [| y l IH]; [reflexivity |].
  cbn [insert_sorted]. rewrite le_key.
  destruct (Z.leb_spec (key x) (key y)) as [Hxy | Hxy]; [reflexivity |].
  cbn [List.filter] in *. rewrite IH.
  destruct (Z.eqb_spec (key x) d), (Z.eqb_spec (key y) d); try reflexivity.
  lia.
Qed.

Lemma sort_by_stable (d : Z) (l : list A) :
  List.filter (λ a, key a =? d) (sort_by le l) = List.filter (λ a, key a =? d) l.
Proof.
  induction l as [| x l IH]; [reflexivity |].
  cbn [sort_by foldr]. rewrite insert_sorted_stable.
  cbn [List.filter]. unfold sort_by in IH. by rewrite IH.
Qed.

End SortByKey.

(** X10. The sort modes.  [shortest] lists the filtered clips by
    non-decreasing duration and [longest] by non-increasing duration;
    [default] keeps the order of the accumulated list.  Sorting neither
    adds nor drops a clip, and it is stable: the clips of one duration stay
    in the order the unsorted result has them. *)
Theorem filteredClips_order (st : State) :
  let unsorted := filteredClips (set_sortMode default_order st) in
  (State.sortMode st = shortest →
   StronglySorted (λ a b, Clip.duration a <= Clip.duration b) (filteredClips st))
  ∧ (State.sortMode st = longest →
     StronglySorted (λ a b, Clip.duration b <= Clip.duration a) (filteredClips st))
  ∧ (State.sortMode st = default_order → filteredClips st = unsorted)
  ∧ filteredClips st ≡ₚ unsorted
  ∧ (∀ d, List.filter (λ c, Clip.duration c =? d) (filteredClips st)
          = List.filter (λ c, Clip.duration c =? d) unsorted)
  ∧ (∀ c, c ∈ unsorted → c ∈ State.clips st).
Proof.
  intros unsorted.
  assert (Hu : unsorted = List.filter (passes st) (State.clips st)).
  { subst unsorted. by rewrite filteredClips_one_pass. }
  rewrite filteredClips_one_pass, Hu. cbn zeta.
  set (result := List.filter (passes st) (State.clips st)).
  assert (Hup : ∀ a b : Clip,
             (Clip.duration a - Clip.duration b <=? 0)
             = (Clip.duration a <=? Clip.duration b)).
  { intros a b.
    destruct (Z.leb_spec (Clip.duration a - Clip.duration b) 0),
             (Z.leb_spec (Clip.duration a) (Clip.duration b)); (reflexivity || lia). }
  assert (Hdown : ∀ a b : Clip,
             (Clip.duration b - Clip.duration a <=? 0)
             = (- Clip.duration a <=? - Clip.duration b)).
  { intros a b.
    destruct (Z.leb_spec (Clip.duration b - Clip.duration a) 0),
             (Z.leb_spec (- Clip.duration a) (- Clip.duration b));
      (reflexivity || lia). }
  split; [intros ->; apply (sort_by_key_sorted Clip.duration _ Hup) |].
  split.
  { intros ->.
    pose proof (sort_by_key_sorted (λ c, - Clip.duration c) _ Hdown result) as H.
    eapply StronglySorted_weaken; [| exact H].
    intros a b Hab. simpl in Hab. lia. }
  split; [by intros -> |].
  split; [destruct (State.sortMode st); [reflexivity | apply sort_by_perm ..] |].
  split.
  - intros d. destruct (State.sortMode st); [reflexivity | |].
    + apply (sort_by_stable Clip.duration _ Hup).
    + pose proof (sort_by_stable (λ c, - Clip.duration c) _ Hdown (- d) result)
        as H.
      erewrite (List.filter_ext _ (λ c, - Clip.duration c =? - d)),
               (List.filter_ext (λ c, Clip.duration c =? d)
                                (λ c, - Clip.duration c =? - d));
        [exact H | |];
        intros c; destruct (Z.eqb_spec (Clip.duration c) d),
                          (Z.eqb_spec (- Clip.duration c) (- d));
        (reflexivity || lia).
  - intros c Hc. subst result. by apply elem_of_List_filter in Hc as [Hc _].
Qed.

(** ** The option lists are canonical *)

Lemma String_leb_spec (a b : string) :
  String.leb a b = true ↔ a = b ∨ OrderedTypeEx.String_as_OT.lt a b.
Proof.
  unfold String.leb.
  pose proof (OrderedTypeEx.String_as_OT.cmp_eq a b) as Heq.
  pose proof (OrderedTypeEx.String_as_OT.cmp_lt a b) as Hlt.
  unfold OrderedTypeEx.String_as_OT.cmp in *.
  destruct (String.compare a b).
  - split; [intros _; left; by apply Heq | done].
  - split; [intros _; right; by apply Hlt | done].
  - split; [discriminate |].
    intros [H | H]; [apply Heq in H | apply Hlt in H]; discriminate.
Qed.

Lemma String_leb_trans (a b c : string) :
  String.leb a b = true → String.leb b c = true → String.leb a c = true.
Proof.
  rewrite !String_leb_spec.
  intros [-> | Hab] [-> | Hbc]; auto.
  right. by eapply OrderedTypeEx.String_as_OT.lt_trans.
Qed.

Lemma ascending_sort_strings (l : list string) : ascending (sort_strings l).
Proof.
  apply sort_by_sorted; [apply String.leb_total | apply String_leb_trans].
Qed.

(** Two ascending lists without repetition that have the same members are
    the same list. *)
Lemma ascending_unique (l1 l2 : list string) :
  ascending l1 → ascending l2 → NoDup l1 → NoDup l2 →
  (∀ x, x ∈ l1 ↔ x ∈ l2) → l1 = l2.
Proof.
  intros H1 H2 N1 N2 Hm.
  eapply (StronglySorted_unique_strong (λ a b, String.leb a b = true));
    [| exact H1 | exact H2 | by apply NoDup_Permutation].
  intros x y _ _. apply String.leb_antisym.
Qed.

(** X11. The option lists are canonical.  A merged list is in ascending
    order and has no repetition, and it is the only such list of the members
    of its two sources; so it depends on neither the order of its sources, nor
    on the order in which two pages arrive, and merging the same tags again
    changes nothing. *)
Theorem mergeOptions_canonical (prev fromClips : list string) :
  let merged := mergeOptions prev fromClips in
  ascending merged
  ∧ NoDup merged
  ∧ (∀ l, ascending l → NoDup l →
          (∀ x, x ∈ l ↔ x ∈ prev ∨ x ∈ fromClips) → l = merged)
  ∧ mergeOptions fromClips prev = merged
  ∧ mergeOptions merged fromClips = merged
  ∧ (∀ other, mergeOptions (mergeOptions prev other) fromClips
              = mergeOptions merged other).
Proof.
  intros merged. subst merged.
  assert (Hasc : ∀ a b, ascending (mergeOptions a b))
    by (intros; apply ascending_sort_strings).
  assert (Huniq : ∀ l a b, ascending l → NoDup l →
                           (∀ x, x ∈ l ↔ x ∈ a ∨ x ∈ b) → l = mergeOptions a b).
  { intros l a b Hl Hn Hm.
    apply ascending_unique; [done | apply Hasc | done | apply NoDup_mergeOptions |].
    intros x. by rewrite elem_of_mergeOptions. }
  split; [apply Hasc |]. split; [apply NoDup_mergeOptions |].
  split; [intros l; apply Huniq |].
  split; [| split].
  - apply Huniq; [apply Hasc | apply NoDup_mergeOptions |].
    intros x. rewrite elem_of_mergeOptions. tauto.
  - symmetry. apply Huniq; [apply Hasc | apply NoDup_mergeOptions |].
    intros x. rewrite !elem_of_mergeOptions. tauto.
  - intros other. apply Huniq; [apply Hasc | apply NoDup_mergeOptions |].
    intros x. rewrite !elem_of_mergeOptions. tauto.
Qed.

(** ** The filter controls *)





(** ** The video library *)

Lemma trimEnd_empty (s : string) : trimEnd s = "" ↔ blank s.
Proof.
  induction s as [| c s IH]; simpl; [done |].
  destruct (trimEnd s) as [| d t].
  - destruct (is_whitespace c); split; try done.
    + intros _. split; [done | by apply IH].
    + by intros [? _].
  - split; [done |]. intros [_ H]. by apply IH in H.
Qed.

Lemma blank_trimStart (s : string) : blank (trimStart s) ↔ blank s.
Proof.
  induction s as [| c s IH]; simpl; [done |].
  destruct (is_whitespace c) eqn:E; [| by simpl; rewrite E].
  rewrite IH. tauto.
Qed.

Lemma trim_empty (s : string) : String.eqb (trim s) "" = true ↔ blank s.
Proof.
  unfold trim. by rewrite String.eqb_eq, trimEnd_empty, blank_trimStart.
Qed.

Lemma matchesVideo_spec (query : string) (v : VideoItem) :
  matchesVideo (toLowerCase query) v = true ↔ video_accepts query v.
Proof.
  assert (Htags : ∀ tags,
             existsb (λ t, includes (toLowerCase t) (toLowerCase query)) tags = true
             ↔ ∃ t, t ∈ tags ∧ occurs_ignoring_case query t).
  { intros tags. rewrite existsb_exists. split.
    - intros (t & H1 & H2). exists t.
      split; [by apply list_elem_of_In | by apply includes_ignoring_case].
    - intros (t & H1 & H2). exists t.
      split; [by apply list_elem_of_In | by apply includes_ignoring_case]. }
  unfold matchesVideo, video_accepts.
  rewrite !orb_true_iff, !includes_ignoring_case, !Htags. tauto.
Qed.

Lemma sublist_List_filter {A} (p : A → bool) (l : list A) :
  sublist (List.filter p l) l.
Proof.
  induction l as [| x l IH]; simpl; [constructor |].
  destruct (p x); by constructor.
Qed.

(** X14. The search box of the video library.  A query of white space
    only, the empty query included, shows every video, in the order they
    were loaded.  Any other query shows, in that order, exactly the videos
    in whose title, summary, main tags or sub tags the query occurs with the
    case of letters ignored; the query is matched as typed, with its leading
    and trailing spaces. *)
Theorem video_search (st : VideoLibrary) :
  let query := VideoLibrary.query st in
  (blank query → filtered st = VideoLibrary.videos st)
  ∧ (¬ blank query →
     (∀ v, v ∈ filtered st ↔ v ∈ VideoLibrary.videos st ∧ video_accepts query v)
     ∧ sublist (filtered st) (VideoLibrary.videos st))
  ∧ (∀ pre mid post v,
       ¬ blank query → VideoItem.title v = pre +:+ mid +:+ post →
       toLowerCase mid = toLowerCase query → v ∈ VideoLibrary.videos st →
       v ∈ filtered st).
Proof.
  intros query. subst query. unfold filtered.
  destruct (String.eqb (trim (VideoLibrary.query st)) "") eqn:E.
  - apply trim_empty in E. split; [done |]. split; [done |].
    by intros pre mid post v Hb.
  - assert (Hnb : ¬ blank (VideoLibrary.query st)).
    { intros Hb. apply trim_empty in Hb. congruence. }
    assert (Hin : ∀ v, v ∈ List.filter
                           (matchesVideo (toLowerCase (VideoLibrary.query st)))
                           (VideoLibrary.videos st)
                       ↔ v ∈ VideoLibrary.videos st
                         ∧ video_accepts (VideoLibrary.query st) v).
    { intros v. by rewrite elem_of_List_filter, matchesVideo_spec. }
    split; [done |]. split.
    + intros _. split; [exact Hin | apply sublist_List_filter].
    + intros pre mid post v _ Htitle Hmid Hv. apply Hin. split; [done |].
      left. by exists pre, mid, post.
Qed.

Lemma find_spec {A} (p : A → bool) (l : list A) :
  match List.find p l with
  | Some x => ∃ before after,
      l = (before ++ x :: after)%list ∧ p x = true
      ∧ ∀ y, y ∈ before → p y = false
  | None => ∀ y, y ∈ l → p y = false
  end.
Proof.
  induction l as [| a l IH]; simpl; [by intros y H; apply elem_of_nil in H |].
  destruct (p a) eqn:Ea.
  - exists [], l. split; [done |]. split; [done |].
    by intros y H; apply elem_of_nil in H.
  - destruct (List.find p l) as [x |].
    + destruct IH as (before & after & -> & Hx & Hb).
      exists (a :: before), after. split; [done |]. split; [done |].
      intros y Hy. apply elem_of_cons in Hy as [-> | Hy]; [done | by apply Hb].
    + intros y Hy. apply elem_of_cons in Hy as [-> | Hy]; [done | by apply IH].
Qed.

Lemma first_occurrence_unique {A} (P : A → Prop) (b1 b2 a1 a2 : list A)
    (x1 x2 : A) :
  (b1 ++ x1 :: a1 = b2 ++ x2 :: a2)%list → P x1 → P x2 →
  (∀ y, y ∈ b1 → ¬ P y) → (∀ y, y ∈ b2 → ¬ P y) → x1 = x2.
Proof.
  revert b2. induction b1 as [| y1 b1 IH]; intros [| y2 b2] E H1 H2 N1 N2.
  - by injection E.
  - injection E as -> _. exfalso. apply (N2 y2); [| done].
    apply elem_of_cons. by left.
  - injection E as -> _. exfalso. apply (N1 x2); [| done].
    apply elem_of_cons. by left.
  - injection E as -> E. apply (IH b2 E H1 H2).
    + intros y Hy. apply N1, elem_of_cons. by right.
    + intros y Hy. apply N2, elem_of_cons. by right.
Qed.

(** X15. The deep link [?videoId=...].  The effect opens the first loaded
    video that has the requested id.  Without the parameter, with an empty
    one, or when no loaded video has that id, it changes nothing: it never
    closes or replaces the video that is open.  It touches nothing but the
    selection. *)
Theorem deep_link_opens_video (videoId : option string) (st : VideoLibrary) :
  let st' := openFromParams videoId st in
  (∀ id before found after,
     videoId = Some id → id ≠ "" →
     VideoLibrary.videos st = (before ++ found :: after)%list →
     VideoItem.id found = id →
     (∀ v, v ∈ before → VideoItem.id v ≠ id) →
     VideoLibrary.selectedVideo st' = Some found)
  ∧ ((videoId = None ∨ videoId = Some ""
      ∨ ∀ v, v ∈ VideoLibrary.videos st → Some (VideoItem.id v) ≠ videoId) →
     st' = st)
  ∧ (VideoLibrary.selectedVideo st ≠ None →
     VideoLibrary.selectedVideo st' ≠ None)
  ∧ VideoLibrary.videos st' = VideoLibrary.videos st
  ∧ VideoLibrary.query st' = VideoLibrary.query st
  ∧ VideoLibrary.loading st' = VideoLibrary.loading st
  ∧ VideoLibrary.errorMessage st' = VideoLibrary.errorMessage st.
Proof.
  intros st'. subst st'. unfold openFromParams.
  destruct videoId as [id |]; [| by repeat split; try done; intros; tauto].
  destruct (String.eqb_spec id "") as [-> | Hid]; cbn [orb].
  { repeat split; try done. intros. congruence. }
  pose proof (find_spec (λ video, String.eqb (VideoItem.id video) id)
                        (VideoLibrary.videos st)) as Hfind.
  destruct (length (VideoLibrary.videos st) =? 0)%nat eqn:Elen.
  - apply Nat.eqb_eq, nil_length_inv in Elen.
    split; [| by repeat split].
    intros id' before found after _ _ Hl. rewrite Elen in Hl.
    by destruct before.
  - destruct (List.find _ (VideoLibrary.videos st)) as [x |].
    + destruct Hfind as (before & after & Hl & Hx & Hb).
      apply String.eqb_eq in Hx.
      split; [| split; [| by repeat split]].
      * intros id' before' found after' [= <-] _ Hl' Hf Hb'. cbn. f_equal.
        rewrite Hl in Hl'.
        assert (Hnb : ∀ v, v ∈ before → VideoItem.id v ≠ id).
        { intros v Hv E. apply Hb in Hv. apply String.eqb_neq in Hv. done. }
        by apply (first_occurrence_unique (λ v, VideoItem.id v = id)
                    before before' after after' x found).
      * intros [H | [H | H]]; [done | congruence |].
        exfalso. apply (H x); [| by rewrite Hx].
        rewrite Hl. apply elem_of_app. right. left.
    + split; [| by repeat split].
      intros id' before found after [= <-] _ Hl Hf _.
      assert (Hin : found ∈ VideoLibrary.videos st).
      { rewrite Hl. apply elem_of_app. right. left. }
      apply Hfind in Hin. apply String.eqb_neq in Hin. done.
Qed.

(** ** Duration labels *)

Lemma padStart_two_digits (n : nat) :
  (n < 60)%nat →
  padStart 2 "0" (pretty (Z.of_nat n)) = two_digits (Z.of_nat n).
Proof.
  intros H. do 60 (destruct n as [| n]; [vm_compute; reflexivity |]). lia.
Qed.

Lemma append_inj_length (s1 s2 t1 t2 : string) :
  s1 +:+ t1 = s2 +:+ t2 → String.length t1 = String.length t2 →
  s1 = s2 ∧ t1 = t2.
Proof.
  assert (Hlen : ∀ a b, String.length (a +:+ b)
                        = (String.length a + String.length b)%nat).
  { intros a b. induction a as [| c a IH]; simpl; [done | by rewrite IH]. }
  revert s2. induction s1 as [| c s1 IH]; intros [| d s2] E L; simpl in E.
  - done.
  - apply (f_equal String.length) in E. simpl in E. rewrite !Hlen in E.
    simpl in E. lia.
  - apply (f_equal String.length) in E. simpl in E. rewrite !Hlen in E.
    simpl in E. lia.
  - injection E as -> E. destruct (IH s2 E L) as [-> ->]. done.
Qed.

Lemma digit_inj (a b : Z) :
  0 <= a < 10 → 0 <= b < 10 → digit a = digit b → a = b.
Proof.
  intros Ha Hb E. unfold digit in E. apply (f_equal nat_of_ascii) in E.
  rewrite !nat_ascii_embedding in E by lia. lia.
Qed.

Lemma two_digits_inj (x y : Z) :
  0 <= x < 100 → 0 <= y < 100 → two_digits x = two_digits y → x = y.
Proof.
  intros Hx Hy E. unfold two_digits in E. injection E as E1 E2.
  assert (Hd : ∀ z, 0 <= z < 100 → 0 <= z / 10 < 10 ∧ 0 <= z mod 10 < 10).
  { intros z Hz. split; [| apply Z.mod_pos_bound; lia].
    split; [apply Z.div_pos; lia | apply Z.div_lt_upper_bound; lia]. }
  destruct (Hd x Hx), (Hd y Hy).
  apply digit_inj in E1; [| done | done].
  apply digit_inj in E2; [| done | done].
  rewrite (Z.div_mod x 10), (Z.div_mod y 10) by lia. congruence.
Qed.

(** X16. The duration label.  For a whole, non-negative number of seconds
    the label is the number of whole minutes, a colon, and the remaining
    seconds written with exactly two digits; minutes are not folded into
    hours.  Different durations get different labels. *)
Theorem formatDuration_label (seconds : Z) :
  0 <= seconds →
  formatDuration seconds
  = pretty (seconds / 60) +:+ ":" +:+ two_digits (seconds mod 60)
  ∧ ∀ other, 0 <= other →
             formatDuration other = formatDuration seconds → other = seconds.
Proof.
  assert (Hshape : ∀ s, 0 <= s →
             formatDuration s
             = pretty (s / 60) +:+ ":" +:+ two_digits (s mod 60)).
  { intros s Hs. unfold formatDuration. cbn zeta.
    rewrite Z.rem_mod_nonneg by lia.
    pose proof (Z.mod_pos_bound s 60 ltac:(lia)) as Hb.
    rewrite <- (Z2Nat.id (s mod 60)) by lia.
    by rewrite padStart_two_digits by lia. }
  intros Hs. split; [by apply Hshape |].
  intros other Ho E. rewrite !Hshape in E by done.
  pose proof (Z.mod_pos_bound seconds 60 ltac:(lia)) as Hb1.
  pose proof (Z.mod_pos_bound other 60 ltac:(lia)) as Hb2.
  apply append_inj_length in E as [E1 E2]; [| reflexivity].
  apply (inj pretty) in E1.
  assert (E3 : two_digits (other mod 60) = two_digits (seconds mod 60)).
  { by apply (String.app_inj ":") in E2. }
  apply two_digits_inj in E3; [| lia | lia].
  rewrite (Z.div_mod other 60), (Z.div_mod seconds 60) by lia. lia.
Qed.

Lemma formatDuration_label_witness :
  formatDuration 3725 = "62:05".
Proof. exact (proj1 (formatDuration_label 3725 ltac:(lia))). Defined.

(** ** The navigation bar *)

Lemma isActive_home (pathname : string) :
  isActive pathname "/" = true ↔ pathname = "/".
Proof.
  unfold isActive. simpl.
  destruct (String.eqb_spec pathname "/"); split; (done || discriminate).
Qed.

Lemma isActive_section (pathname link : string) :
  link ≠ "/" →
  isActive pathname link = true ↔ ∃ rest, pathname = link +:+ rest.
Proof.
  intros Hne. unfold isActive.
  apply String.eqb_neq in Hne. rewrite Hne. simpl.
  rewrite <- startsWith_spec. by destruct (startsWith pathname link).
Qed.

Lemma highlighted_spec (pathname link : string) :
  highlighted pathname link = true
  ↔ if String.eqb link "/" then pathname = "/"
    else ∃ rest, pathname = link +:+ rest.
Proof.
  unfold highlighted. destruct (String.eqb_spec link "/") as [-> | Hne].
  - rewrite andb_true_iff, isActive_home, String.eqb_eq. tauto.
  - by apply isActive_section.
Qed.

(** X17. The navigation bar highlights at most one link.  The first link
    is highlighted on the path [/] alone; each of the others on every path
    that begins with its own path, deeper pages included; and no path
    highlights two of the four links. *)
Theorem navigation_highlights_one_link (pathname : string) :
  (length (List.filter (highlighted pathname) nav_links) ≤ 1)%nat
  ∧ (highlighted pathname "/" = true ↔ pathname = "/")
  ∧ (∀ link, link ∈ nav_links → link ≠ "/" →
       (highlighted pathname link = true ↔ ∃ rest, pathname = link +:+ rest))
  ∧ (∀ a b, a ∈ nav_links → b ∈ nav_links →
       highlighted pathname a = true → highlighted pathname b = true → a = b).
Proof.
  assert (Hone : ∀ a b, a ∈ nav_links → b ∈ nav_links →
                        highlighted pathname a = true →
                        highlighted pathname b = true → a = b).
  { intros a b Ha Hb. rewrite !highlighted_spec.
    unfold nav_links in Ha, Hb.
    repeat (apply elem_of_cons in Ha as [-> | Ha]);
      try (by apply elem_of_nil in Ha);
      repeat (apply elem_of_cons in Hb as [-> | Hb]);
      try (by apply elem_of_nil in Hb);
      simpl; try done;
      repeat (intros [? ?] || intros ?); subst; discriminate. }
  split; [| split; [| split; [| exact Hone]]].
  - assert (Hin : ∀ l, l ∈ nav_links ↔ In l nav_links)
      by (intros; apply list_elem_of_In).
    pose proof (Hone "/" "/library") as H01.
    pose proof (Hone "/" "/favorites") as H02.
    pose proof (Hone "/" "/videos") as H03.
    pose proof (Hone "/library" "/favorites") as H12.
    pose proof (Hone "/library" "/videos") as H13.
    pose proof (Hone "/favorites" "/videos") as H23.
    unfold nav_links in *. cbn [List.filter].
    destruct (highlighted pathname "/"), (highlighted pathname "/library"),
      (highlighted pathname "/favorites"), (highlighted pathname "/videos");
      cbn [length]; try lia; exfalso;
      first [ discriminate H01; (done || apply Hin; simpl; tauto)
            | discriminate H02; (done || apply Hin; simpl; tauto)
            | discriminate H03; (done || apply Hin; simpl; tauto)
            | discriminate H12; (done || apply Hin; simpl; tauto)
            | discriminate H13; (done || apply Hin; simpl; tauto)
            | discriminate H23; (done || apply Hin; simpl; tauto) ].
  - rewrite highlighted_spec. done.
  - intros link _ Hne. rewrite highlighted_spec.
    apply String.eqb_neq in Hne. by rewrite Hne.
Qed.

(** ** The remote data client: base address and failures of the transport *)

Lemma strip_trailing_slash_snoc (s : string) :
  Api.strip_trailing_slash (s +:+ "/") = s.
Proof.
  induction s as [| c s IH]; [reflexivity |].
  change (String c s +:+ "/") with (String c (s +:+ "/")).
  cbn [Api.strip_trailing_slash]. rewrite IH.
  by destruct s.
Qed.

Lemma strip_trailing_slash_other (s : string) :
  (∀ t, s ≠ t +:+ "/") → Api.strip_trailing_slash s = s.
Proof.
  induction s as [| c s IH]; intros H; [reflexivity |].
  destruct s as [| d s].
  - cbn. destruct (Ascii.eqb_spec c "/") as [-> | Hc]; [| reflexivity].
    by destruct (H "").
  - change (Api.strip_trailing_slash (String c (String d s)))
      with (String c (Api.strip_trailing_slash (String d s))).
    rewrite IH; [reflexivity |].
    intros t E. apply (H (String c t)). by rewrite E.
Qed.

(** X18. The base address loses one trailing slash, and only that.  A
    configured address that ends in a slash is used without it, so that no
    request path starts with two slashes; any other address is used as it
    is; a second trailing slash stays; and without configuration the base is
    empty and the requests go to the page's own origin. *)
Theorem API_BASE_drops_one_slash (base : string) :
  Api.API_BASE_of (Some (base +:+ "/")) = base
  ∧ ((∀ t, base ≠ t +:+ "/") → Api.API_BASE_of (Some base) = base)
  ∧ Api.API_BASE_of None = ""
  ∧ first_request (Api.fetchLibraryMeta (Api.API_BASE_of (Some (base +:+ "/"))))
    = Some {| Api.http_method := Api.GET;
              Api.url := base +:+ "/api/library/meta" |}.
Proof.
  assert (H1 : Api.API_BASE_of (Some (base +:+ "/")) = base)
    by apply strip_trailing_slash_snoc.
  rewrite H1. split; [reflexivity |].
  split; [apply strip_trailing_slash_other |].
  split; reflexivity.
Qed.

(** X19. Failures of the transport and of the body.  When the request
    cannot be made at all, each operation fails with the [TypeError] of
    [fetch], not with its own message.  The status is checked before the
    body is read: a 2xx response whose body is not JSON makes the four
    reading operations fail with a [SyntaxError], while the favorite update,
    which never reads the body, succeeds.  The video list fails with a
    [TypeError] on the body [null], and is [undefined] when the body is an
    object without a [videos] member.  One request is sent in each case. *)
Theorem client_transport_failures (API_BASE : string) (op : Api.operation)
    (net : list Api.Request → Api.Request → Api.answer) (req : Api.Request) :
  first_request (Api.perform API_BASE op) = Some req →
  let result := Api.run net (Api.perform API_BASE op) in
  fst result = [req]
  ∧ (net [] req = Api.Unreachable → snd result = inl Api.TypeError)
  ∧ (∀ r, net [] req = Api.Responded r → 200 <= Api.status r <= 299 →
          Api.payload r = None →
          snd result = match op with
                       | Api.SetClipFavorite _ _ => inr Api.undefined
                       | _ => inl Api.SyntaxError
                       end)
  ∧ (∀ r, net [] req = Api.Responded r → 200 <= Api.status r <= 299 →
          op = Api.FetchVideos →
          (Api.payload r = Some Api.JNull → snd result = inl Api.TypeError)
          ∧ (∀ ms, Api.payload r = Some (Api.JObject ms) →
                   (∀ k v, (k, v) ∈ ms → k ≠ "videos") →
                   snd result = inr Api.undefined)).
Proof.
  intros Hreq result. subst result.
  destruct (run_perform API_BASE op net) as (req' & Hreq' & Hrun).
  rewrite Hreq in Hreq'. injection Hreq' as <-.
  rewrite Hrun. cbn [fst snd].
  split; [reflexivity |]. split; [by intros -> |]. split.
  - intros r -> Hok Hnone. apply ok_spec in Hok.
    unfold outcome. rewrite Hok, Hnone. by destruct op.
  - intros r -> Hok ->. apply ok_spec in Hok.
    unfold outcome. rewrite Hok. split.
    + by intros ->.
    + intros ms -> Hms. cbn [resolution Api.member].
      assert (Hl : Api.lookup_member "videos" ms = Api.undefined).
      { induction ms as [| [k v] ms IH]; [reflexivity |]. simpl.
        destruct (String.eqb_spec k "videos") as [-> | _].
        - exfalso. apply (Hms "videos" v); [left | done].
        - apply IH. intros k' v' Hin. apply (Hms k' v'). by right. }
      unfold resolution. cbn [Api.member]. by rewrite Hl.
Qed.

Lemma client_transport_failures_witness :
  Api.run (λ _ _, Api.Unreachable)
          (Api.fetchLibraryClips "https://api.example" (Some 30) (Some 60))
  = ([clips_request], inl Api.TypeError).
Proof.
  pose proof (client_transport_failures "https://api.example"
                (Api.FetchLibraryClips (Some 30) (Some 60))
                (λ _ _, Api.Unreachable) clips_request eq_refl)
    as (H1 & H2 & _).
  specialize (H2 eq_refl).
  apply injective_projections; [exact H1 | exact H2].
Defined.

(** ** The error panel *)

Lemma react_at_rest (e : event) (sys : System) :
  State.hasMoreFromServer (ui sys) = false →
  loadMoreClips_blocked (rendered sys) = true →
  only_toggles_in_flight sys →
  State.errorMessage (ui (fst (react e sys))) = State.errorMessage (ui sys)
  ∧ State.hasMoreFromServer (ui (fst (react e sys))) = false
  ∧ loadMoreClips_blocked (rendered (fst (react e sys))) = true
  ∧ only_toggles_in_flight (fst (react e sys)).
Proof.
  intros Hmore Hr Hfl. destruct e as [| | clip | selection | i r now].
  - simpl. repeat split; try done. by apply blocked_at_the_end.
  - simpl. rewrite loadMoreClips_guarded; done.
  - simpl. repeat split; [done | done |].
    intros f Hf. cbn [inflight] in Hf.
    apply elem_of_app in Hf as [Hf | Hf]; [by apply Hfl |].
    apply list_elem_of_singleton in Hf as ->. eauto.
  - simpl. done.
  - cbn [react fst]. rewrite rendered_settle. unfold settle.
    destruct (inflight sys !! i) as [f |] eqn:E; [| done].
    assert (Hrest : only_toggles_in_flight (landed i sys)).
    { intros g Hg. apply Hfl. cbn [landed inflight] in Hg.
      by apply list_elem_of_delete_inv in Hg. }
    destruct (Hfl f) as (clip & closure & ->);
      [by eapply list_elem_of_lookup_2 |].
    destruct r as [meta | page | | message]; try done.
    unfold handleToggleFavorite_fulfilled.
    destruct (favoritesOnly (landed i sys) && negb (next_of clip)); done.
Qed.

(** X20. An error on a loaded library stays.  Once the server has reported
    the end, neither the metadata nor a page is in flight and the render on
    screen does not pass the guard (as every render committed since the end
    was reported), nothing that can happen to the component, renders
    included, clears or replaces the error message: the list keeps showing
    the error panel in place of the clips that are loaded. *)
Theorem error_panel_persists (es : list event) (sys : System)
    (message : string) :
  State.hasMoreFromServer (ui sys) = false →
  loadMoreClips_blocked (rendered sys) = true →
  only_toggles_in_flight sys →
  State.errorMessage (ui sys) = Some message → message ≠ "" →
  ClipList_body (ui (fst (run_events es sys))) = ErrorPanel message.
Proof.
  intros Hmore Hr Hfl Herr Hne.
  assert (Hkeep : State.errorMessage (ui (fst (run_events es sys)))
                  = State.errorMessage (ui sys)).
  { clear Herr. revert sys Hmore Hr Hfl.
    induction es as [| e es IH]; intros sys Hmore Hr Hfl; [done |].
    destruct (react_at_rest e sys Hmore Hr Hfl) as (He & Hm & Hr1 & Hf).
    cbn [run_events]. destruct (react e sys) as [sys1 calls1].
    cbn [fst] in *. specialize (IH sys1 Hm Hr1 Hf).
    destruct (run_events es sys1) as [sys2 calls2]. cbn [fst] in *.
    by rewrite IH. }
  unfold ClipList_body. rewrite Hkeep, Herr.
  apply String.eqb_neq in Hne. by rewrite Hne.
Qed.

Lemma error_panel_persists_witness :
  State.clips (ui loaded_without_metadata) = [clip_b]
  ∧ ClipList_body
      (ui (fst (run_events [Render; InvokeLoadMore; ClickFavorite clip_b;
                            SelectClip None]
                           loaded_without_metadata)))
    = ErrorPanel "Failed to load library metadata".
Proof.
  split; [reflexivity |].
  apply (error_panel_persists
           [Render; InvokeLoadMore; ClickFavorite clip_b; SelectClip None]
           loaded_without_metadata "Failed to load library metadata").
  - reflexivity.
  - reflexivity.
  - intros f Hf. by apply elem_of_nil in Hf.
  - reflexivity.
  - discriminate.
Defined.

(** ** Failures and overlaps *)

(** X21. A failed first page is final.  After a mount that missed the
    cache, when the first page fails the list is empty and
    [hasMoreFromServer] still has its initial value [false]: unlike a failed
    load-more, nothing requests the page again, whatever happens next. *)
Theorem first_page_failure_is_final (v : bool) (now : Z) (c : Caches)
    (sys0 : System) (message : string) (t : Z) (es : list event) :
  mount v now c = Mounted sys0 [Api.FetchLibraryMeta; pageCall v 0] →
  let failed := settle 1 (Failed message) t sys0 in
  let run := run_events es failed in
  State.errorMessage (ui failed) = Some message
  ∧ State.isLoading (ui failed) = false
  ∧ loadMoreClips failed = (failed, [])
  ∧ snd run = toggle_calls es
  ∧ State.clips (ui (fst run)) = []
  ∧ caches failed = caches sys0.
Proof.
  intros Hmount. destruct (mount_miss _ _ _ _ Hmount) as (Hui & Hfl & Hv & Hr).
  destruct sys0 as [v0 st0 c0 fl0 shown0]. simpl in Hui, Hfl, Hv, Hr.
  subst v0 st0 fl0 shown0.
  cbn zeta.
  set (failed := settle 1 (Failed message) t _).
  assert (Hmore : State.hasMoreFromServer (ui failed) = false) by reflexivity.
  assert (Hr : loadMoreClips_blocked (rendered failed) = true) by reflexivity.
  assert (H0 : pages_in_flight failed = 0%nat) by reflexivity.
  destruct (run_events_exhausted es failed Hmore Hr H0) as (Hc & _ & _ & Hl).
  split; [reflexivity |]. split; [reflexivity |]. split; [reflexivity |].
  split; [exact Hc |]. split; [| reflexivity].
  change (State.clips (ui failed)) with (@nil Clip) in Hl.
  destruct (State.clips _); [done | simpl in Hl; lia].
Qed.

Lemma first_page_failure_is_final_witness :
  snd (run_events [Render; InvokeLoadMore; Settle 0 (GotMeta demo_meta) 9;
                   Render; InvokeLoadMore]
                  (settle 1 (Failed "Failed to load clips") 5 cold_system))
  = [].
Proof.
  exact (proj1 (proj2 (proj2 (proj2
           (first_page_failure_is_final false 0 empty_caches cold_system
              "Failed to load clips" 5
              [Render; InvokeLoadMore; Settle 0 (GotMeta demo_meta) 9;
               Render; InvokeLoadMore]
              eq_refl))))).
Defined.



(** ** The video list and its deep link *)

Lemma openFromParams_found (id : string) (st : VideoLibrary)
    (before after : list VideoItem) (found : VideoItem) :
  id ≠ "" →
  VideoLibrary.videos st = (before ++ found :: after)%list →
  VideoItem.id found = id →
  (∀ v, v ∈ before → VideoItem.id v ≠ id) →
  openFromParams (Some id) st
  = VideoLibrary.make (VideoLibrary.videos st) (Some found)
      (VideoLibrary.query st) (VideoLibrary.loading st)
      (VideoLibrary.errorMessage st).
Proof.
  intros Hid Hl Hf Hb. unfold openFromParams.
  apply String.eqb_neq in Hid. rewrite Hid. cbn [orb].
  rewrite Hl at 1. rewrite length_app. cbn [length].
  replace (length before + S (length after) =? 0)%nat with false
    by (symmetry; apply Nat.eqb_neq; lia).
  pose proof (find_spec (λ video, String.eqb (VideoItem.id video) id)
                        (VideoLibrary.videos st)) as Hfind.
  destruct (List.find _ (VideoLibrary.videos st)) as [x |].
  - destruct Hfind as (before' & after' & Hl' & Hx & Hb').
    apply String.eqb_eq in Hx. rewrite Hl in Hl'.
    assert (found = x) as <-; [| reflexivity].
    apply (first_occurrence_unique (λ v, VideoItem.id v = id)
             before before' after after' found x); try done.
    intros v Hv E. apply Hb' in Hv. apply String.eqb_neq in Hv. done.
  - assert (Hin : found ∈ VideoLibrary.videos st).
    { rewrite Hl. apply elem_of_app. right. apply elem_of_cons. by left. }
    apply Hfind in Hin. apply String.eqb_neq in Hin. done.
Qed.

(** X9. The deep link waits for the list.  While the video list is
    still empty the link opens nothing; once the list has loaded, the first
    video with the requested id is open, the loading flag is down and no
    error is shown; if the load fails, the error is shown and nothing is
    opened.  Loading sends the one request for the videos. *)
Theorem deep_link_after_load (id : string) (st : VideoLibrary)
    (before after : list VideoItem) (found : VideoItem) (message : string) :
  id ≠ "" → VideoItem.id found = id →
  (∀ v, v ∈ before → VideoItem.id v ≠ id) →
  VideoLibrary.videos st = [] →
  let rows := (before ++ found :: after)%list in
  let started := fst (load_started st) in
  snd (load_started st) = [Api.FetchVideos]
  ∧ openFromParams (Some id) started = started
  ∧ openFromParams (Some id) (load_fulfilled rows started)
    = VideoLibrary.make rows (Some found) (VideoLibrary.query st) false None
  ∧ openFromParams (Some id) (load_rejected message started)
    = VideoLibrary.make [] (VideoLibrary.selectedVideo st)
        (VideoLibrary.query st) false (Some message).
Proof.
  intros Hid Hf Hb Hempty rows started. subst rows started.
  assert (Hnone : ∀ s, VideoLibrary.videos s = [] →
                       openFromParams (Some id) s = s).
  { intros s Hs. unfold openFromParams. rewrite Hs. cbn [length Nat.eqb].
    by rewrite orb_true_r. }
  split; [reflexivity |]. split; [by apply Hnone |]. split.
  - by rewrite (openFromParams_found id _ before after found).
  - rewrite Hnone by exact Hempty.
    unfold load_rejected, load_started. cbn. by rewrite Hempty.
Qed.

Lemma deep_link_after_load_witness :
  VideoLibrary.selectedVideo
    (openFromParams (Some "v2")
       (load_fulfilled (VideoLibrary.videos two_videos)
                       (fst (load_started initial_videos))))
  = Some (sample_video "v2" "Back takes").
Proof.
  pose proof (deep_link_after_load "v2" initial_videos
                [sample_video "v1" "Guard passing"] []
                (sample_video "v2" "Back takes") "Failed to load videos") as H.
  cbn zeta in H.
  destruct H as (_ & _ & H & _); [discriminate | reflexivity | | reflexivity |].
  - intros v Hv. apply list_elem_of_singleton in Hv as ->. discriminate.
  - exact (f_equal VideoLibrary.selectedVideo H).
Defined.
